(** * duet.py: the game session of the Duet arcade game

    A shallow embedding of [src/duet.py] (class [DuetGame]): construction of a
    session, the per-tick control of the two balls, and the body of
    [game_loop].  The collaborators imported from [scripts/] (Ball,
    ObstacleManager, Controller) are not part of the file under study; their
    behaviour is taken from the specification or left as a parameter, and
    each such definition says so. *)

From Stdlib Require Import ZArith List String Bool Lia Reals Lra.
Import ListNotations.

Local Open Scope Z_scope.

(** ** Module-level constants of duet.py *)

Definition BOARD_HEIGHT : Z := 960.
Definition BOARD_WIDTH : Z := 540.

Definition CIRCLE_RADIUS : Z := 100.
Definition CIRCLE_WIDTH : Z := 1.
Definition DIST_TO_BOTTOM : Z := CIRCLE_RADIUS + 15.
(** [SPIN_STEP = 0.0224]; angles are idealised as real numbers. *)
Definition SPIN_STEP : R := (224 / 10000)%R.

Definition NEW_OBS_INTERVAL : Z := 140.

(** ** Exceptions and results

    Python statements either complete or raise.  [SystemExit] carries the
    line printed just before [exit()] is called. *)

Inductive exn : Type :=
| SystemExit (printed : string)
| ValueError (msg : string)
| IndexError
| AttributeError (name : string).

Inductive result (A : Type) : Type :=
| Ok (a : A)
| Raise (e : exn).

Arguments Ok {A} a.
Arguments Raise {A} e.

Definition bind {A B : Type} (m : result A) (k : A -> result B) : result B :=
  match m with
  | Ok a => k a
  | Raise e => Raise e
  end.

Notation "x <- m ;; k" := (bind m (fun x => k))
  (at level 61, m at next level, right associativity).

(** ** Ball *)

Module Ball.

(** Modelled from the spec: scripts/ball.py is missing.  A ball keeps the
    five arguments of its constructor, in the order of the calls in
    [init_balls]: [Ball(x, y, theta, r, dtheta)]. *)
Record t : Type := mk {
  x : Z;
  y : Z;
  theta : R;
  r : Z;
  dtheta : R
}.

(** Modelled from the spec: Ball's angle is "always taken modulo 2 pi";
    [wrap a] is the representative of [a] in the interval from 0 to 2 pi. *)
Definition wrap (a : R) : R :=
  (a - IZR (Int_part (a / (2 * PI))) * (2 * PI))%R.

(** Modelled from the spec: Ball.spin_left is missing; it "decrements theta
    by the fixed step magnitude; wraps modulo 2 pi". *)
Definition spin_left (b : t) : t :=
  mk (x b) (y b) (wrap (theta b - dtheta b)) (r b) (dtheta b).

(** Modelled from the spec: Ball.spin_right is missing; it "increments theta
    by the fixed step magnitude; wraps modulo 2 pi". *)
Definition spin_right (b : t) : t :=
  mk (x b) (y b) (wrap (theta b + dtheta b)) (r b) (dtheta b).

(** The two balls are on opposite sides of the orbit circle: their angles
    differ by pi up to a whole number of turns. *)
Definition opposite (b1 b2 : t) : Prop :=
  exists k : Z, (theta b1 - theta b2 = PI + IZR k * (2 * PI))%R.

End Ball.

(** ** Obstacle *)

Module Obstacle.

(** Modelled from the spec: scripts/obstacle.py is missing.  An obstacle is
    the rectangle [(x, y, width, height)]. *)
Record t : Type := mk {
  x : Z;
  y : Z;
  width : Z;
  height : Z
}.

(** Modelled from the spec: Obstacle.move is missing; it "advances y by the
    fixed downward speed".  The speed is a constant of the missing module
    and is passed in. *)
Definition move (speed : Z) (o : t) : t :=
  mk (x o) (y o + speed) (width o) (height o).

(** Modelled from the spec: the out-of-frame test is missing; an obstacle
    "is out-of-frame when y exceeds the board height plus its own
    height". *)
Definition out_of_frame (o : t) : bool :=
  BOARD_HEIGHT + height o <? y o.

End Obstacle.

(** ** Controller *)

Module Controller.

(** Modelled from the spec: scripts/controller.py is missing.  The
    controller is "stateless between calls": the object carries nothing. *)
Inductive t : Type := mk.

End Controller.

(** ** ObstacleManager, data *)

Module ObstacleManager.

(** Modelled from the spec: scripts/obstacle_manager.py is missing.  The
    manager "owns an ordered sequence of ObstacleSets (oldest-first)".
    New sets are drawn from a random policy; [draws] is the number of
    sets drawn so far, the position in the stream of random choices. *)
Record t : Type := mk {
  obstacle_sets : list (list Obstacle.t);
  draws : nat
}.

(** Modelled from the spec: the constructor is missing; [ObstacleManager()]
    holds no set yet and has drawn nothing. *)
Definition new : t := mk [] 0.

End ObstacleManager.

(** ** The session *)

(** The attributes of a [DuetGame] instance that the simulation reads or
    writes.  The screen and the fonts only serve drawing.  [controller] is
    set only in mode "contr". *)
Record DuetGame : Type := mkDuetGame {
  blue_ball : Ball.t;
  red_ball : Ball.t;
  obstacle_manager : ObstacleManager.t;
  mode : string;
  controller : option Controller.t
}.

(** What pygame reports during one pass of the loop: the state of the arrow
    keys, and whether an event of type QUIT is waiting in the queue. *)
Record Input : Type := mkInput {
  K_LEFT : bool;
  K_RIGHT : bool;
  QUIT : bool
}.

(** The local variables of [game_loop], with the session they act on. *)
Record Loop : Type := mkLoop {
  game : DuetGame;
  quit_game : bool;
  game_over : bool;
  i : Z;
  score : Z
}.

(** Assignment to the balls' state, and to [self.obstacle_manager]. *)
Definition set_balls (g : DuetGame) (blue red : Ball.t) : DuetGame :=
  mkDuetGame blue red (obstacle_manager g) (mode g) (controller g).

Definition set_obstacle_manager (g : DuetGame) (om : ObstacleManager.t)
  : DuetGame :=
  mkDuetGame (blue_ball g) (red_ball g) om (mode g) (controller g).

(** [init_balls], lines 57-74. *)
Definition init_balls : Ball.t * Ball.t :=
  let blue_x := BOARD_WIDTH / 2 - CIRCLE_RADIUS in
  let blue_y := BOARD_HEIGHT - DIST_TO_BOTTOM in
  let blue_theta := PI in
  let blue_ball := Ball.mk blue_x blue_y blue_theta CIRCLE_RADIUS SPIN_STEP in
  let red_x := BOARD_WIDTH / 2 + CIRCLE_RADIUS in
  let red_y := BOARD_HEIGHT - DIST_TO_BOTTOM in
  let red_theta := 0%R in
  let red_ball := Ball.mk red_x red_y red_theta CIRCLE_RADIUS SPIN_STEP in
  (blue_ball, red_ball).

(** ** The game-over prompt *)

(** What pygame reports at one poll of the prompt shown by [game_over]: the
    state of the two keys it reads, and whether an event of type QUIT is
    waiting in the queue. *)
Record Poll : Type := mkPoll {
  K_ESCAPE : bool;
  K_RETURN : bool;
  QUIT_seen : bool
}.

(** The [while] loop of [game_over], lines 166-179, fed with one poll per
    pass.  [None]: the polls ran out with the prompt still waiting. *)
Fixpoint game_over_while (polls : list Poll) (quit_game restart : bool)
    {struct polls} : option bool :=
  if quit_game || restart then Some quit_game
  else
    match polls with
    | [] => None
    | keys :: rest =>
        let '(quit_game, restart) :=
          if K_ESCAPE keys then (true, restart)
          else if K_RETURN keys then (quit_game, true)
          else (quit_game, restart) in
        let quit_game := if QUIT_seen keys then true else quit_game in
        game_over_while rest quit_game restart
    end.

(** [game_over], lines 153-181; the method reads [self] only to draw. *)
Definition DuetGame_game_over (polls : list Poll) : option bool :=
  let quit_game := false in
  let restart := false in
  game_over_while polls quit_game restart.

(** A poll that ends the prompt: a key it reads is held or the window was
    closed. *)
Definition decisive (p : Poll) : bool :=
  K_ESCAPE p || K_RETURN p || QUIT_seen p.

(** ** Drawing *)

Definition GREY : Z * Z * Z := (169, 169, 169).

(** The arguments of a call of [pygame.draw.circle]. *)
Record Circle : Type := mkCircle {
  circle_color : Z * Z * Z;
  circle_center : Z * Z;
  circle_radius : Z;
  circle_width : Z
}.

(** [draw_circle], lines 114-120: the circle handed to pygame. *)
Definition draw_circle : Circle :=
  mkCircle GREY (BOARD_WIDTH / 2, BOARD_HEIGHT - DIST_TO_BOTTOM)
    CIRCLE_RADIUS CIRCLE_WIDTH.

(** ** A concrete choice of the open parts

    Used to run the definitions on explicit inputs: obstacles scroll by 4 per
    tick; the sets are, in turn, one bar between the two balls and one bar
    over the left half of the board; a ball collides with a bar when the
    bar's rectangle contains the ball's coordinates; the controller holds
    while the nearest bar is far. *)

Definition demo_speed : Z := 4.

Definition demo_generate (n : nat) : list Obstacle.t :=
  if Nat.even n then [Obstacle.mk 220 0 100 30]
  else [Obstacle.mk 0 0 (BOARD_WIDTH / 2) 30].

Definition demo_position (b : Ball.t) : R * R :=
  (IZR (Ball.x b), IZR (Ball.y b)).

Definition demo_collided_with (b : Ball.t) (o : Obstacle.t) : bool :=
  (Obstacle.x o <=? Ball.x b)
  && (Ball.x b <=? Obstacle.x o + Obstacle.width o)
  && (Obstacle.y o <=? Ball.y b)
  && (Ball.y b <=? Obstacle.y o + Obstacle.height o).

Definition demo_get_controll (_ : Controller.t) (obstacles : list Obstacle.t)
    (_ _ : R * R) : Z :=
  match obstacles with
  | [] => 0
  | o :: _ =>
      if Obstacle.y o <? 400 then 0
      else if Obstacle.x o =? 0 then 1 else -1
  end.

(** The session as the constructor leaves it, with the first set of
    [demo_generate]. *)
Definition demo_session (m : string) : DuetGame :=
  mkDuetGame (fst init_balls) (snd init_balls)
    (ObstacleManager.mk [demo_generate 0] 1) m
    (if (m =? "contr")%string then Some Controller.mk else None).

(** A session in mode "man" holding the given sets after [n] draws. *)
Definition demo_holding (sets : list (list Obstacle.t)) (n : nat) : DuetGame :=
  mkDuetGame (fst init_balls) (snd init_balls) (ObstacleManager.mk sets n)
    "man" None.

(** Before pass 248 of an idle game: the first bar is one move away from
    leaving the frame. *)
Definition demo_leaving : Loop :=
  mkLoop (demo_holding [[Obstacle.mk 220 988 100 30];
                        [Obstacle.mk 0 428 270 30]] 2)
    false false 108 0.

(** Before pass 344 of an idle game: the left bar is one move away from the
    blue ball. *)
Definition demo_near : Loop :=
  mkLoop (demo_holding [[Obstacle.mk 0 812 270 30];
                        [Obstacle.mk 220 252 100 30]] 3)
    false false 64 1.

(** After pass 248: the first bar is gone and has scored. *)
Definition demo_left : Loop :=
  mkLoop (demo_holding [[Obstacle.mk 0 432 270 30]] 2) false false 109 1.

(** After pass 344: the left bar has reached the blue ball. *)
Definition demo_hit : Loop :=
  mkLoop (demo_holding [[Obstacle.mk 0 816 270 30];
                        [Obstacle.mk 220 256 100 30]] 3)
    false true 65 1.

(** Before and after pass 140, the first pass that spawns. *)
Definition demo_before_spawn : Loop :=
  mkLoop (demo_holding [[Obstacle.mk 220 556 100 30]] 1) false false 0 0.

Definition demo_spawned : Loop :=
  mkLoop (demo_holding [[Obstacle.mk 220 560 100 30];
                        [Obstacle.mk 0 0 270 30]] 2)
    false false 1 0.

(** Two sets out of frame at once: a tall bar, and behind it a low bar that
    is already beyond the bottom edge. *)
Definition demo_two_out : Loop :=
  mkLoop (demo_holding [[Obstacle.mk 0 1560 270 600];
                        [Obstacle.mk 220 1000 100 30];
                        [Obstacle.mk 0 440 270 30]] 3)
    false false 12 0.

(** One pass later the tall bar is gone; another pass later the low one. *)
Definition demo_one_out : Loop :=
  mkLoop (demo_holding [[Obstacle.mk 220 1004 100 30];
                        [Obstacle.mk 0 444 270 30]] 3)
    false false 13 1.

Definition demo_none_out : Loop :=
  mkLoop (demo_holding [[Obstacle.mk 0 448 270 30]] 3) false false 14 2.

(** A pass on which the window is closed, and the state it leaves when it
    is the first pass of a game. *)
Definition demo_quit : Input := mkInput false false true.

Definition demo_after_quit : Loop :=
  mkLoop (demo_holding [[Obstacle.mk 220 4 100 30]] 1) true false 2 0.

(** Polls of the prompt: nothing, RETURN held, RETURN held while the window
    is closed. *)
Definition demo_poll_quiet : Poll := mkPoll false false false.
Definition demo_poll_return : Poll := mkPoll false true false.
Definition demo_poll_return_quit : Poll := mkPoll false true true.

(** A scroll speed that takes a bar through the whole board in one move. *)
Definition demo_too_fast : Z := 1000.

(** A controller that holds while the nearest bar is above y = 600 and
    steers left below. *)
Definition demo_hold_then_left (_ : Controller.t)
    (obstacles : list Obstacle.t) (_ _ : R * R) : Z :=
  match obstacles with
  | [] => 0
  | o :: _ => if Obstacle.y o <? 600 then 0 else -1
  end.

(** A controller that always steers right. *)
Definition demo_always_right (_ : Controller.t) (_ : list Obstacle.t)
    (_ _ : R * R) : Z := 1.

(** One pass with no key held and no QUIT event, and passes with one arrow
    key held. *)
Definition idle : Input := mkInput false false false.
Definition hold_left : Input := mkInput true false false.
Definition hold_right : Input := mkInput false true false.

Section Game.

(** Constants and operations of the missing modules that duet.py calls
    and whose definition the specification leaves open. *)

(** The scroll speed shared by all obstacles. *)
Variable OBSTACLE_SPEED : Z.

(** The generation policy: the set produced by the [n]-th draw. *)
Variable generate : nat -> list Obstacle.t.

(** [Ball.position] and [Ball.collided_with]. *)
Variable position : Ball.t -> R * R.
Variable collided_with : Ball.t -> Obstacle.t -> bool.

(** [Controller.get_controll(obstacles, red_position, blue_position)]. *)
Variable get_controll :
  Controller.t -> list Obstacle.t -> R * R -> R * R -> Z.

(** *** ObstacleManager, operations *)

(** Modelled from the spec: new_obstacle_set is missing; it "constructs
    and appends a new ObstacleSet". *)
Definition new_obstacle_set (om : ObstacleManager.t) : ObstacleManager.t :=
  ObstacleManager.mk
    (ObstacleManager.obstacle_sets om
     ++ [generate (ObstacleManager.draws om)])%list
    (S (ObstacleManager.draws om)).

(** Modelled from the spec: oldest_obstacle_set is missing; it "returns the
    first set without mutation"; on a manager with no sets it "fails
    loudly". *)
Definition oldest_obstacle_set (om : ObstacleManager.t)
  : result (list Obstacle.t) :=
  match ObstacleManager.obstacle_sets om with
  | oldest :: _ => Ok oldest
  | [] => Raise IndexError
  end.

(** Modelled from the spec: oldest_out_of_frame is missing; it is "true iff
    every obstacle in the oldest set is out-of-frame". *)
Definition oldest_out_of_frame (om : ObstacleManager.t) : result bool :=
  oldest <- oldest_obstacle_set om ;;
  Ok (forallb Obstacle.out_of_frame oldest).

(** Modelled from the spec: remove_obstacle_set is missing; it "pops the
    oldest set; fails if the manager is empty". *)
Definition remove_obstacle_set (om : ObstacleManager.t)
  : result ObstacleManager.t :=
  match ObstacleManager.obstacle_sets om with
  | _ :: rest => Ok (ObstacleManager.mk rest (ObstacleManager.draws om))
  | [] => Raise IndexError
  end.

(** Modelled from the spec: get_obstacles is missing; it "returns a
    flattened view of obstacle geometry", in iteration order. *)
Definition get_obstacles (om : ObstacleManager.t) : list Obstacle.t :=
  List.concat (ObstacleManager.obstacle_sets om).

(** *** DuetGame *)

(** [__init__], lines 36-55.  No statement of the constructor looks at the
    value of [mode] except to create the controller. *)
Definition __init__ (mode : string) : result DuetGame :=
  let '(blue_ball, red_ball) := init_balls in
  let obstacle_manager := ObstacleManager.new in
  let obstacle_manager := new_obstacle_set obstacle_manager in
  Ok (mkDuetGame blue_ball red_ball obstacle_manager mode
        (if (mode =? "contr")%string then Some Controller.mk else None)).

(** [move_balls], lines 76-112.  [keys] is what [pygame.key.get_pressed()]
    returns; reading [self.controller] fails when the attribute was never
    set. *)
Definition move_balls (keys : Input) (self : DuetGame) : result DuetGame :=
  if (mode self =? "man")%string then
    if K_LEFT keys then
      Ok (set_balls self (Ball.spin_left (blue_ball self))
                         (Ball.spin_left (red_ball self)))
    else if K_RIGHT keys then
      Ok (set_balls self (Ball.spin_right (blue_ball self))
                         (Ball.spin_right (red_ball self)))
    else Ok self
  else if (mode self =? "contr")%string then
    match controller self with
    | None => Raise (AttributeError "controller")
    | Some c =>
        let controll :=
          get_controll c (get_obstacles (obstacle_manager self))
            (position (red_ball self)) (position (blue_ball self)) in
        if controll =? -1 then
          Ok (set_balls self (Ball.spin_left (blue_ball self))
                             (Ball.spin_left (red_ball self)))
        else if controll =? 1 then
          Ok (set_balls self (Ball.spin_right (blue_ball self))
                             (Ball.spin_right (red_ball self)))
        else Ok self
    end
  else if (mode self =? "ai")%string then
    Raise (SystemExit "Not implemented yet!")
  else
    Raise (ValueError ("Invalid game mode '" ++ mode self ++ "'")%string).

(** [move_obstacles], lines 144-151. *)
Definition move_obstacles (self : DuetGame) : DuetGame :=
  let om := obstacle_manager self in
  set_obstacle_manager self
    (ObstacleManager.mk
       (map (map (Obstacle.move OBSTACLE_SPEED))
            (ObstacleManager.obstacle_sets om))
       (ObstacleManager.draws om)).

(** Lines 219-225: the loop over the oldest set; [game_over] is only ever
    set, never cleared. *)
Definition check_collisions (blue red : Ball.t)
    (oldest_obstacle_set : list Obstacle.t) (game_over : bool) : bool :=
  fold_left
    (fun game_over obstacle =>
       let game_over :=
         if collided_with blue obstacle then true else game_over in
       if collided_with red obstacle then true else game_over)
    oldest_obstacle_set game_over.

(** Lines 202-205: expiry of the oldest set, with the score. *)
Definition expire (self : DuetGame) (score : Z) : result (DuetGame * Z) :=
  out <- oldest_out_of_frame (obstacle_manager self) ;;
  if out : bool then
    om <- remove_obstacle_set (obstacle_manager self) ;;
    Ok (set_obstacle_manager self om, score + 1)
  else Ok (self, score).

(** Lines 207-209: a new set when the counter is a multiple of the
    interval. *)
Definition spawn (self : DuetGame) (i : Z) : DuetGame :=
  if i mod NEW_OBS_INTERVAL =? 0 then
    set_obstacle_manager self (new_obstacle_set (obstacle_manager self))
  else self.

(** One pass through the body of the [while] loop of [game_loop], lines
    194-234.  The delay and the drawing change nothing the loop reads. *)
Definition tick (inp : Input) (st : Loop) : result Loop :=
  self <- move_balls inp (game st) ;;
  let self := move_obstacles self in
  self_score <- expire self (score st) ;;
  let '(self, score) := self_score in
  let self := spawn self (i st) in
  oldest <- oldest_obstacle_set (obstacle_manager self) ;;
  let game_over :=
    check_collisions (blue_ball self) (red_ball self) oldest (game_over st) in
  let quit_game := if QUIT inp then true else quit_game st in
  let i := i st + 1 in
  let i := i mod NEW_OBS_INTERVAL in
  Ok (mkLoop self quit_game game_over i score).

(** The local variables at the entry of the loop, lines 188-191. *)
Definition start (self : DuetGame) : Loop :=
  mkLoop self false false 1 0.

(** The [while] loop, line 192, fed with what pygame reports at each pass.
    When the inputs run out the loop is still running and its current state
    is returned. *)
Fixpoint while_loop (inputs : list Input) (st : Loop) {struct inputs}
  : result Loop :=
  if game_over st || quit_game st then Ok st
  else
    match inputs with
    | [] => Ok st
    | inp :: rest => st' <- tick inp st ;; while_loop rest st'
    end.

(** [game_loop], lines 183-234, up to the exit of the loop; the prompt
    shown after a collision only talks to the player. *)
Definition game_loop (inputs : list Input) (self : DuetGame) : result Loop :=
  while_loop inputs (start self).

(** ** Vocabulary of the properties *)

(** The obstacle sets held, and the number of sets drawn, in a state of the
    loop. *)
Definition sets_of (st : Loop) : list (list Obstacle.t) :=
  ObstacleManager.obstacle_sets (obstacle_manager (game st)).

Definition draws_of (st : Loop) : nat :=
  ObstacleManager.draws (obstacle_manager (game st)).

(** The loop is still running in [st]: the guard of the [while] holds. *)
Definition running (st : Loop) : Prop :=
  game_over st = false /\ quit_game st = false.

(** The two balls went through the same operation between [g] and [g']. *)
Definition in_step (g g' : DuetGame) : Prop :=
  (blue_ball g' = Ball.spin_left (blue_ball g)
   /\ red_ball g' = Ball.spin_left (red_ball g))
  \/ (blue_ball g' = Ball.spin_right (blue_ball g)
      /\ red_ball g' = Ball.spin_right (red_ball g))
  \/ (blue_ball g' = blue_ball g /\ red_ball g' = red_ball g).

(** Same angular step, and angles half a turn apart. *)
Definition synchronized (g : DuetGame) : Prop :=
  Ball.dtheta (blue_ball g) = Ball.dtheta (red_ball g)
  /\ Ball.opposite (blue_ball g) (red_ball g).

(** The sets appended by [spawn] at counter value [i]. *)
Definition spawned (om : ObstacleManager.t) (i : Z) : list (list Obstacle.t) :=
  if i mod NEW_OBS_INTERVAL =? 0 then [generate (ObstacleManager.draws om)]
  else [].

(** [k] moves of every obstacle of a set. *)
Definition moved (k : nat) (set : list Obstacle.t) : list Obstacle.t :=
  map (fun o => Nat.iter k (Obstacle.move OBSTACLE_SPEED) o) set.

(** No steering on the pass made from the session [self] with the input
    [inp]: in mode "man" no arrow key is held; in mode "contr" the decision
    the controller takes for this session, from its obstacles and the
    positions of its balls, is neither -1 nor 1. *)
Definition no_steering (self : DuetGame) (inp : Input) : Prop :=
  (mode self = "man"%string /\ K_LEFT inp = false /\ K_RIGHT inp = false)
  \/ (mode self = "contr"%string
      /\ forall c, controller self = Some c ->
           get_controll c (get_obstacles (obstacle_manager self))
             (position (red_ball self)) (position (blue_ball self)) <> -1
           /\ get_controll c (get_obstacles (obstacle_manager self))
                (position (red_ball self)) (position (blue_ball self)) <> 1).

(** The session before pass [k + 1] of a game in which nothing was steered
    or removed so far, for [k] below the interval: the first set has moved
    [k] times and no other set has arrived. *)
Definition before_pass (self : DuetGame) (k : nat) : DuetGame :=
  set_obstacle_manager self
    (ObstacleManager.mk [moved k (generate 0%nat)] 1).

(** The state of the loop after [k] passes on which nothing was steered,
    nothing collided and the first set stayed in frame, for [k] up to the
    interval: the first set has moved [k] times and the second set arrives
    on pass 140. *)
Definition after_idle (self : DuetGame) (k : nat) : Loop :=
  mkLoop
    (set_obstacle_manager self
       (if (k <? 140)%nat
        then ObstacleManager.mk [moved k (generate 0%nat)] 1
        else ObstacleManager.mk [moved k (generate 0%nat); generate 1%nat] 2))
    false false ((Z.of_nat k + 1) mod NEW_OBS_INTERVAL) 0.

(** [game_loop] from the loop to its [return], lines 192-239, entered in
    state [st]: after a collision the answer of the prompt replaces
    [quit_game].  [None]: the inputs ran out with the loop or the prompt
    still going. *)
Definition loop_return (inputs : list Input) (polls : list Poll) (st : Loop)
  : result (option bool) :=
  st <- while_loop inputs st ;;
  if game_over st then Ok (DuetGame_game_over polls)
  else if quit_game st then Ok (Some true)
  else Ok None.

(** [game_loop], lines 183-239, with its return value. *)
Definition game_loop_return (inputs : list Input) (polls : list Poll)
    (self : DuetGame) : result (option bool) :=
  loop_return inputs polls (start self).

(** [passes n st st']: the loop, entered in [st], makes exactly [n] passes
    and is then in [st']. *)
Inductive passes : nat -> Loop -> Loop -> Prop :=
| passes_0 : forall st, passes 0 st st
| passes_S : forall n st inp st1 st',
    running st -> tick inp st = Ok st1 -> passes n st1 st' ->
    passes (S n) st st'.

(** The sets drawn from number [first] on, as they are after pass [k] of a
    game whose set [j] arrived on pass [140 * j]. *)
Definition window (k first count : nat) : list (list Obstacle.t) :=
  map (fun j => moved (k - 140 * j) (generate j)) (seq first count).

(** The state [st] is what [k] passes of a game make of the obstacle
    manager, whatever was steered: the counter announces pass [k + 1], one
    set was drawn at construction and one every 140 passes, the sets up to
    the score have been removed, and the others are held in the order of
    their arrival, each moved once per pass since it arrived. *)
Definition in_order (k : nat) (st : Loop) : Prop :=
  i st = (Z.of_nat k + 1) mod NEW_OBS_INTERVAL
  /\ draws_of st = S (k / 140)
  /\ exists first : nat,
       score st = Z.of_nat first
       /\ (first <= k / 140)%nat
       /\ sets_of st = window k first (S (k / 140) - first).

(** The session can be steered: its mode is "man", or "contr" with the
    controller in place. *)
Definition steerable (self : DuetGame) : Prop :=
  mode self = "man"%string
  \/ (mode self = "contr"%string /\ controller self <> None).

(** * Properties *)

(** ** Results *)

Lemma bind_Ok {A B : Type} (m : result A) (k : A -> result B) (b : B) :
  bind m k = Ok b -> exists a, m = Ok a /\ k a = Ok b.
Proof.
  destruct m as [a|e]; simpl; intros H; [eauto | discriminate].
Qed.

Ltac inv_Ok H := injection H as H; try subst.

(** ** Construction *)

Lemma __init___eq (m : string) :
  __init__ m =
  Ok (mkDuetGame (fst init_balls) (snd init_balls)
        (ObstacleManager.mk [generate 0%nat] 1) m
        (if (m =? "contr")%string then Some Controller.mk else None)).
Proof. reflexivity. Qed.

(** C8: the constructor creates the two balls through its single call of
    [init_balls]: the blue ball at angle pi, the red ball at angle 0, both
    with orbit radius CIRCLE_RADIUS and angular step SPIN_STEP. *)
Theorem C8_balls_created_at_fixed_angles :
  forall m : string,
  exists self,
    __init__ m = Ok self
    /\ (blue_ball self, red_ball self) = init_balls
    /\ Ball.theta (blue_ball self) = PI
    /\ Ball.theta (red_ball self) = 0%R
    /\ Ball.r (blue_ball self) = CIRCLE_RADIUS
    /\ Ball.r (red_ball self) = CIRCLE_RADIUS
    /\ Ball.dtheta (blue_ball self) = SPIN_STEP
    /\ Ball.dtheta (red_ball self) = SPIN_STEP.
Proof.
  intros m. rewrite __init___eq. eexists. split; [reflexivity|].
  repeat split; reflexivity.
Qed.

(** ** Control of the balls *)

(** C1, as the code has it: a session in mode "ai" is constructed like any
    other, with its balls and its first obstacle set; the mode is rejected at
    first use, when [move_balls] prints its message and exits on the first
    pass of the loop. *)
Theorem C1_ai_mode_rejected_at_first_use :
  exists self,
    __init__ "ai" = Ok self
    /\ mode self = "ai"%string
    /\ (blue_ball self, red_ball self) = init_balls
    /\ ObstacleManager.obstacle_sets (obstacle_manager self) = [generate 0%nat]
    /\ game_loop [] self = Ok (start self)
    /\ (forall keys, move_balls keys self
                     = Raise (SystemExit "Not implemented yet!"))
    /\ (forall inp rest, game_loop (inp :: rest) self
                         = Raise (SystemExit "Not implemented yet!")).
Proof.
  rewrite __init___eq. eexists. split; [reflexivity|].
  repeat split.
Qed.

(** C9: in mode "contr", a decision of the controller other than -1 and 1
    makes [move_balls] return the session as it was: both balls keep their
    angle, and every other attribute too. *)
Theorem C9_contr_other_decision_leaves_balls :
  forall (keys : Input) (self : DuetGame) (c : Controller.t),
    mode self = "contr"%string ->
    controller self = Some c ->
    get_controll c (get_obstacles (obstacle_manager self))
      (position (red_ball self)) (position (blue_ball self)) <> -1 ->
    get_controll c (get_obstacles (obstacle_manager self))
      (position (red_ball self)) (position (blue_ball self)) <> 1 ->
    move_balls keys self = Ok self
    /\ forall self', move_balls keys self = Ok self' ->
         Ball.theta (blue_ball self') = Ball.theta (blue_ball self)
         /\ Ball.theta (red_ball self') = Ball.theta (red_ball self).
Proof.
  intros keys self c Hm Hc Hl Hr.
  assert (E : move_balls keys self = Ok self).
  { unfold move_balls. rewrite Hm, Hc. cbn.
    apply Z.eqb_neq in Hl, Hr. rewrite Hl, Hr. reflexivity. }
  split; [exact E|].
  intros self' H. rewrite E in H. inv_Ok H. split; reflexivity.
Qed.

Lemma move_balls_in_step (keys : Input) (self self' : DuetGame) :
  move_balls keys self = Ok self' ->
  in_step self self'
  /\ obstacle_manager self' = obstacle_manager self
  /\ mode self' = mode self
  /\ controller self' = controller self.
Proof.
  unfold move_balls, in_step. intros H.
  destruct (mode self =? "man")%string.
  - destruct (K_LEFT keys); [|destruct (K_RIGHT keys)];
      inv_Ok H; cbn; auto 10.
  - destruct (mode self =? "contr")%string.
    + destruct (controller self) as [c|] eqn:Ec; [|discriminate].
      cbv zeta in H.
      destruct (_ =? -1); [|destruct (_ =? 1)]; inv_Ok H; cbn; auto 10.
    + destruct (mode self =? "ai")%string; discriminate.
Qed.

Lemma expire_Ok (self self2 : DuetGame) (sc sc2 : Z) :
  expire self sc = Ok (self2, sc2) ->
  exists oldest rest,
    ObstacleManager.obstacle_sets (obstacle_manager self) = oldest :: rest
    /\ (if forallb Obstacle.out_of_frame oldest
        then self2 = set_obstacle_manager self
                       (ObstacleManager.mk rest
                          (ObstacleManager.draws (obstacle_manager self)))
             /\ sc2 = sc + 1
        else self2 = self /\ sc2 = sc).
Proof.
  unfold expire, oldest_out_of_frame, oldest_obstacle_set, remove_obstacle_set.
  destruct (ObstacleManager.obstacle_sets (obstacle_manager self))
    as [|oldest rest]; cbn; [discriminate|].
  intros H. exists oldest, rest. split; [reflexivity|].
  destruct (forallb Obstacle.out_of_frame oldest); cbn in H;
    injection H as H1 H2; auto.
Qed.

Lemma expire_balls (self self2 : DuetGame) (sc sc2 : Z) :
  expire self sc = Ok (self2, sc2) ->
  blue_ball self2 = blue_ball self /\ red_ball self2 = red_ball self
  /\ mode self2 = mode self /\ controller self2 = controller self.
Proof.
  intros H. apply expire_Ok in H. destruct H as [oldest [rest [_ H]]].
  destruct (forallb Obstacle.out_of_frame oldest); destruct H as [-> _];
    repeat split.
Qed.

Lemma spawn_balls (self : DuetGame) (n : Z) :
  blue_ball (spawn self n) = blue_ball self
  /\ red_ball (spawn self n) = red_ball self
  /\ mode (spawn self n) = mode self
  /\ controller (spawn self n) = controller self.
Proof. unfold spawn. destruct (_ =? 0); repeat split. Qed.

(** The passes of [tick], one after the other. *)
Lemma tick_Ok (inp : Input) (st st' : Loop) :
  tick inp st = Ok st' ->
  exists self1 self2 score2 oldest,
    move_balls inp (game st) = Ok self1
    /\ expire (move_obstacles self1) (score st) = Ok (self2, score2)
    /\ oldest_obstacle_set (obstacle_manager (spawn self2 (i st))) = Ok oldest
    /\ st' = mkLoop (spawn self2 (i st))
               (if QUIT inp then true else quit_game st)
               (check_collisions (blue_ball self1) (red_ball self1) oldest
                  (game_over st))
               ((i st + 1) mod NEW_OBS_INTERVAL)
               score2.
Proof.
  unfold tick. intros H.
  apply bind_Ok in H. destruct H as [self1 [H1 H]].
  apply bind_Ok in H. destruct H as [[self2 score2] [H2 H]].
  apply bind_Ok in H. destruct H as [oldest [H3 H]].
  inv_Ok H. exists self1, self2, score2, oldest.
  destruct (expire_balls _ _ _ _ H2) as [Eb [Er _]].
  destruct (spawn_balls self2 (i st)) as [Sb [Sr _]].
  rewrite Sb, Sr, Eb, Er. cbn. auto.
Qed.

Lemma tick_in_step (inp : Input) (st st' : Loop) :
  tick inp st = Ok st' ->
  in_step (game st) (game st').
Proof.
  intros H. apply tick_Ok in H.
  destruct H as [self1 [self2 [score2 [oldest [H1 [H2 [_ ->]]]]]]].
  apply move_balls_in_step in H1. destruct H1 as [H1 _].
  destruct (expire_balls _ _ _ _ H2) as [Eb [Er _]].
  destruct (spawn_balls self2 (i st)) as [Sb [Sr _]].
  unfold in_step in *. cbn [game]. rewrite Sb, Sr, Eb, Er. exact H1.
Qed.

(** An invariant of the passes holds when the loop stops and whenever the
    inputs run out. *)
Lemma while_loop_invariant (P : Loop -> Prop) :
  (forall inp st st', running st -> P st -> tick inp st = Ok st' -> P st') ->
  forall inputs st st',
    P st -> while_loop inputs st = Ok st' -> P st'.
Proof.
  intros Hstep. induction inputs as [|inp rest IH]; intros st st' HP H.
  - cbn in H. destruct (game_over st || quit_game st); inv_Ok H; exact HP.
  - cbn in H.
    destruct (game_over st || quit_game st) eqn:E; [inv_Ok H; exact HP|].
    apply orb_false_iff in E.
    apply bind_Ok in H. destruct H as [st1 [H1 H]].
    exact (IH st1 st' (Hstep inp st st1 E HP H1) H).
Qed.

(** ** Angles *)

Lemma wrap_turns (a : R) :
  exists k : Z, (Ball.wrap a = a + IZR k * (2 * PI))%R.
Proof.
  exists (- Int_part (a / (2 * PI))). unfold Ball.wrap.
  rewrite opp_IZR. ring.
Qed.

Lemma opposite_shift (b1 b2 : Ball.t) (a1 a2 d : R) :
  Ball.opposite b1 b2 ->
  Ball.theta b1 = a1 -> Ball.theta b2 = a2 ->
  exists k : Z,
    (Ball.wrap (a1 + d) - Ball.wrap (a2 + d) = PI + IZR k * (2 * PI))%R.
Proof.
  intros [k Hk] <- <-.
  destruct (wrap_turns (Ball.theta b1 + d)) as [k1 ->].
  destruct (wrap_turns (Ball.theta b2 + d)) as [k2 ->].
  exists (k + k1 - k2). rewrite minus_IZR, plus_IZR.
  replace (Ball.theta b1) with (Ball.theta b2 + (PI + IZR k * (2 * PI)))%R
    by (rewrite <- Hk; ring).
  ring.
Qed.

Lemma in_step_synchronized (g g' : DuetGame) :
  in_step g g' -> synchronized g -> synchronized g'.
Proof.
  unfold synchronized.
  intros [[-> ->]|[[-> ->]|[-> ->]]] [Hd Ho]; [| |auto]; split; cbn; auto.
  - unfold Ball.opposite; cbn. rewrite <- Hd. unfold Rminus at 2 3.
    exact (opposite_shift _ _ _ _ (- Ball.dtheta (blue_ball g)) Ho
             eq_refl eq_refl).
  - unfold Ball.opposite; cbn. rewrite <- Hd.
    exact (opposite_shift _ _ _ _ (Ball.dtheta (blue_ball g)) Ho
             eq_refl eq_refl).
Qed.

Lemma init_synchronized (m : string) (self : DuetGame) :
  __init__ m = Ok self -> synchronized self.
Proof.
  rewrite __init___eq. intros H. inv_Ok H. split; [reflexivity|].
  exists 0. cbn. ring.
Qed.

(** C2: whatever the mode and the input, [move_balls] puts both balls through
    the same operation (both [spin_left], both [spin_right], or neither), and
    so does every pass of the loop; hence, from construction on, the angles
    of the two balls stay pi apart modulo 2 pi, at every state the loop
    reaches. *)
Theorem C2_balls_rotate_together :
  (forall keys self self',
      move_balls keys self = Ok self' -> in_step self self')
  /\ (forall inp st st', tick inp st = Ok st' -> in_step (game st) (game st'))
  /\ (forall m self inputs st,
         __init__ m = Ok self ->
         game_loop inputs self = Ok st ->
         Ball.opposite (blue_ball (game st)) (red_ball (game st))).
Proof.
  split; [|split].
  - intros keys self self' H. apply (move_balls_in_step keys self self' H).
  - exact tick_in_step.
  - intros m self inputs st Hi Hl.
    apply init_synchronized in Hi.
    apply (while_loop_invariant (fun st => synchronized (game st)))
      with (inputs := inputs) (st := start self) (st' := st);
      [|exact Hi|exact Hl].
    intros inp st0 st1 _ HP Ht.
    exact (in_step_synchronized _ _ (tick_in_step _ _ _ Ht) HP).
Qed.

(** ** The body of the loop *)

(** What one pass does to the obstacle sets, the draws, the score and the
    counter, in terms of the state before the pass. *)
Lemma tick_shape (inp : Input) (st st' : Loop) :
  tick inp st = Ok st' ->
  exists oldest rest,
    map (map (Obstacle.move OBSTACLE_SPEED)) (sets_of st) = oldest :: rest
    /\ sets_of st'
       = ((if forallb Obstacle.out_of_frame oldest then rest
           else oldest :: rest)
          ++ spawned (obstacle_manager (game st)) (i st))%list
    /\ draws_of st'
       = (draws_of st + (if (i st mod NEW_OBS_INTERVAL =? 0)%Z then 1 else 0))%nat
    /\ score st'
       = score st + (if forallb Obstacle.out_of_frame oldest then 1 else 0)
    /\ i st' = (i st + 1) mod NEW_OBS_INTERVAL
    /\ quit_game st' = (if QUIT inp then true else quit_game st).
Proof.
  unfold sets_of, draws_of. intros H. apply tick_Ok in H.
  destruct H as [self1 [self2 [score2 [old' [H1 [H2 [_ ->]]]]]]].
  apply move_balls_in_step in H1. destruct H1 as [_ [Hom _]].
  apply expire_Ok in H2. destruct H2 as [oldest [rest [Hs H2]]].
  cbn in Hs. rewrite Hom in Hs. exists oldest, rest.
  split; [exact Hs|]. cbn [game score i quit_game].
  unfold spawn, spawned.
  destruct (forallb Obstacle.out_of_frame oldest); destruct H2 as [-> ->];
    destruct (i st mod NEW_OBS_INTERVAL =? 0); cbn; rewrite ?Hom, ?Hs;
    rewrite ?app_nil_r, ?Nat.add_0_r, ?Nat.add_1_r, ?Z.add_0_r;
    repeat split.
Qed.

Lemma check_collisions_existsb (blue red : Ball.t) (oldest : list Obstacle.t)
    (go : bool) :
  check_collisions blue red oldest go
  = go || existsb (fun o => collided_with blue o || collided_with red o) oldest.
Proof.
  unfold check_collisions. revert go.
  induction oldest as [|o rest IH]; intros go; cbn.
  - now rewrite orb_false_r.
  - rewrite IH.
    destruct (collided_with blue o), (collided_with red o), go; reflexivity.
Qed.

Lemma while_loop_stopped (inputs : list Input) (st : Loop) :
  game_over st = true \/ quit_game st = true ->
  while_loop inputs st = Ok st.
Proof.
  intros H.
  assert (E : game_over st || quit_game st = true)
    by (apply orb_true_iff; exact H).
  destruct inputs; cbn; rewrite E; reflexivity.
Qed.

(** C3: on a pass of the running loop, the collision test ranges over the
    obstacles of the oldest set of the manager, and over nothing else:
    [game_over] becomes true exactly when the blue or the red ball collides
    with one of them, and once it is true no further pass is made. *)
Theorem C3_collision_against_oldest_set_only :
  forall inp st st',
    running st ->
    tick inp st = Ok st' ->
    exists oldest rest,
      sets_of st' = oldest :: rest
      /\ game_over st'
         = existsb (fun o => collided_with (blue_ball (game st')) o
                             || collided_with (red_ball (game st')) o) oldest
      /\ (game_over st' = true <->
          exists o, In o oldest
                    /\ (collided_with (blue_ball (game st')) o = true
                        \/ collided_with (red_ball (game st')) o = true))
      /\ (game_over st' = true ->
          forall more, while_loop more st' = Ok st').
Proof.
  unfold sets_of. intros inp st st' [Hgo _] H. apply tick_Ok in H.
  destruct H as [self1 [self2 [score2 [oldest [H1 [H2 [H3 ->]]]]]]].
  destruct (expire_balls _ _ _ _ H2) as [Eb [Er _]].
  destruct (spawn_balls self2 (i st)) as [Sb [Sr _]].
  cbn in Eb, Er. cbn [game game_over].
  unfold oldest_obstacle_set in H3.
  destruct (ObstacleManager.obstacle_sets
              (obstacle_manager (spawn self2 (i st)))) as [|o1 rest] eqn:E;
    [discriminate|]. inv_Ok H3.
  exists oldest, rest. rewrite Sb, Sr, Eb, Er, Hgo.
  rewrite check_collisions_existsb. cbn [orb].
  split; [reflexivity|]. split; [reflexivity|]. split.
  - rewrite existsb_exists. split; intros [o [Hin Hc]]; exists o;
      (split; [exact Hin|]); apply orb_true_iff; exact Hc.
  - intros Hc more. apply while_loop_stopped. left. exact Hc.
Qed.

(** C4: a pass on which the oldest set, once moved, is judged out of frame
    removes that set, and only it, and adds exactly 1 to the score; a pass on
    which it is not keeps every set and leaves the score as it was. *)
Theorem C4_one_removal_one_point :
  forall inp st st',
    tick inp st = Ok st' ->
    exists oldest rest,
      map (map (Obstacle.move OBSTACLE_SPEED)) (sets_of st) = oldest :: rest
      /\ (forallb Obstacle.out_of_frame oldest = true ->
          score st' = score st + 1
          /\ sets_of st'
             = (rest ++ spawned (obstacle_manager (game st)) (i st))%list)
      /\ (forallb Obstacle.out_of_frame oldest = false ->
          score st' = score st
          /\ sets_of st'
             = (oldest :: rest
                ++ spawned (obstacle_manager (game st)) (i st))%list).
Proof.
  intros inp st st' H. apply tick_shape in H.
  destruct H as [oldest [rest [Hs [Hsets [_ [Hsc _]]]]]].
  exists oldest, rest. split; [exact Hs|].
  split; intros E; rewrite E in Hsets, Hsc; split; auto; lia.
Qed.

Lemma out_of_frame_move (o : Obstacle.t) :
  0 <= OBSTACLE_SPEED ->
  Obstacle.out_of_frame o = true ->
  Obstacle.out_of_frame (Obstacle.move OBSTACLE_SPEED o) = true.
Proof.
  unfold Obstacle.out_of_frame, Obstacle.move. cbn.
  intros Hv H. apply Z.ltb_lt in H. apply Z.ltb_lt. lia.
Qed.

Lemma forallb_out_of_frame_move (set : list Obstacle.t) :
  0 <= OBSTACLE_SPEED ->
  forallb Obstacle.out_of_frame set = true ->
  forallb Obstacle.out_of_frame (map (Obstacle.move OBSTACLE_SPEED) set) = true.
Proof.
  intros Hv. induction set as [|o set IH]; cbn; [reflexivity|].
  intros H. apply andb_true_iff in H. destruct H as [Ho Hs].
  rewrite (out_of_frame_move o Hv Ho), (IH Hs). reflexivity.
Qed.

(** C10: one pass removes at most one set and adds at most 1 to the score.
    When the two oldest sets are both out of frame, the pass removes the
    first and keeps the second, now the oldest; the second goes on the next
    pass. *)
Theorem C10_at_most_one_removal_per_tick :
  forall inp st st',
    tick inp st = Ok st' ->
    score st <= score st' <= score st + 1
    /\ (List.length (sets_of st) <= List.length (sets_of st') + 1)%nat
    /\ forall s1 s2 rest,
         map (map (Obstacle.move OBSTACLE_SPEED)) (sets_of st)
         = s1 :: s2 :: rest ->
         forallb Obstacle.out_of_frame s1 = true ->
         forallb Obstacle.out_of_frame s2 = true ->
         score st' = score st + 1
         /\ sets_of st'
            = (s2 :: rest ++ spawned (obstacle_manager (game st)) (i st))%list
         /\ forall inp2 st'',
              0 <= OBSTACLE_SPEED ->
              tick inp2 st' = Ok st'' ->
              score st'' = score st + 2
              /\ sets_of st''
                 = (map (map (Obstacle.move OBSTACLE_SPEED))
                        (rest ++ spawned (obstacle_manager (game st)) (i st))
                    ++ spawned (obstacle_manager (game st')) (i st'))%list.
Proof.
  intros inp st st' H. apply tick_shape in H.
  destruct H as [oldest [rest0 [Hs [Hsets [_ [Hsc _]]]]]].
  split; [destruct (forallb Obstacle.out_of_frame oldest); lia|].
  split.
  - rewrite <- (List.length_map (map (Obstacle.move OBSTACLE_SPEED)) (sets_of st)).
    rewrite Hs, Hsets.
    destruct (forallb Obstacle.out_of_frame oldest);
      rewrite List.length_app; cbn; lia.
  - intros s1 s2 rest Hm H1 H2. rewrite Hs in Hm.
    injection Hm as -> ->. rewrite H1 in Hsets, Hsc.
    split; [lia|]. split; [exact Hsets|].
    intros inp2 st'' Hv H. apply tick_shape in H.
    destruct H as [oldest' [rest' [Hs' [Hsets' [_ [Hsc' _]]]]]].
    rewrite Hsets in Hs'. cbn in Hs'. injection Hs' as <- <-.
    rewrite (forallb_out_of_frame_move s2 Hv H2) in Hsets', Hsc'.
    split; [lia|exact Hsets'].
Qed.

(** C7: a pass of the running loop goes through its steps in this order:
    control applied and balls moved, all obstacles moved, oldest set expired
    and score updated, new set spawned, collisions tested.  The test uses the
    balls as [move_balls] left them, and every obstacle it looks at has been
    moved on this pass or was spawned on it. *)
Theorem C7_moves_before_collision_test :
  forall inp st st',
    running st ->
    tick inp st = Ok st' ->
    exists self1 self2 score2 oldest,
      move_balls inp (game st) = Ok self1
      /\ expire (move_obstacles self1) (score st) = Ok (self2, score2)
      /\ game st' = spawn self2 (i st)
      /\ score st' = score2
      /\ oldest_obstacle_set (obstacle_manager (game st')) = Ok oldest
      /\ game_over st'
         = check_collisions (blue_ball self1) (red_ball self1) oldest false
      /\ forall o, In o oldest ->
           (exists set o0, In set (sets_of st) /\ In o0 set
                           /\ o = Obstacle.move OBSTACLE_SPEED o0)
           \/ In o (generate (draws_of st)).
Proof.
  intros inp st st' [Hgo _] H. pose proof (tick_shape _ _ _ H) as Hshape.
  apply tick_Ok in H.
  destruct H as [self1 [self2 [score2 [oldest [H1 [H2 [H3 ->]]]]]]].
  exists self1, self2, score2, oldest. rewrite Hgo. cbn [game score game_over].
  do 6 (split; [assumption || reflexivity|]).
  destruct Hshape as [old0 [rest [Hs [Hsets _]]]].
  unfold sets_of in Hsets. cbn [game] in Hsets.
  unfold oldest_obstacle_set in H3. rewrite Hsets in H3.
  assert (Hin : In oldest
                  (map (map (Obstacle.move OBSTACLE_SPEED)) (sets_of st)
                   ++ spawned (obstacle_manager (game st)) (i st))).
  { rewrite Hs.
    destruct (forallb Obstacle.out_of_frame old0).
    - right. destruct (rest ++ spawned (obstacle_manager (game st)) (i st))%list
        as [|hd tl]; [discriminate|]. inv_Ok H3. left. reflexivity.
    - cbn in H3. inv_Ok H3. left. reflexivity. }
  intros o Ho. apply in_app_or in Hin. destruct Hin as [Hin|Hin].
  - left. apply in_map_iff in Hin. destruct Hin as [set [<- Hset]].
    apply in_map_iff in Ho. destruct Ho as [o0 [<- Ho0]].
    exists set, o0. auto.
  - right. unfold spawned in Hin.
    destruct (i st mod NEW_OBS_INTERVAL =? 0); [|contradiction].
    destruct Hin as [<-|[]]. exact Ho.
Qed.

(** ** The cadence of spawning *)

Lemma div_interval_step (t : Z) :
  1 <= t ->
  t / NEW_OBS_INTERVAL
  = (t - 1) / NEW_OBS_INTERVAL
    + (if t mod NEW_OBS_INTERVAL =? 0 then 1 else 0).
Proof.
  unfold NEW_OBS_INTERVAL. intros Ht.
  destruct (t mod 140 =? 0) eqn:E;
    [apply Z.eqb_eq in E | apply Z.eqb_neq in E];
    Z.div_mod_to_equations; lia.
Qed.

(** While the loop runs, its counter is the number of the coming pass modulo
    the interval, and the draws follow the quotient. *)
Lemma while_loop_running_count :
  forall inputs st0 st t,
    1 <= t ->
    i st0 = t mod NEW_OBS_INTERVAL ->
    while_loop inputs st0 = Ok st ->
    running st ->
    i st = (t + Z.of_nat (List.length inputs)) mod NEW_OBS_INTERVAL
    /\ Z.of_nat (draws_of st)
       = Z.of_nat (draws_of st0)
         + (t + Z.of_nat (List.length inputs) - 1) / NEW_OBS_INTERVAL
         - (t - 1) / NEW_OBS_INTERVAL.
Proof.
  induction inputs as [|inp rest IH]; intros st0 st t Ht Hi H Hrun.
  - cbn in H. destruct (game_over st0 || quit_game st0); inv_Ok H.
    + cbn. rewrite Z.add_0_r. split; [exact Hi|lia].
    + cbn. rewrite Z.add_0_r. split; [exact Hi|lia].
  - cbn [while_loop] in H.
    destruct (game_over st0 || quit_game st0) eqn:E.
    + inv_Ok H. destruct Hrun as [Hg Hq]. rewrite Hg, Hq in E. discriminate.
    + apply bind_Ok in H. destruct H as [st1 [H1 H]].
      apply tick_shape in H1.
      destruct H1 as [oldest [rest0 [_ [_ [Hd [_ [Hi1 _]]]]]]].
      assert (Hi1' : i st1 = (t + 1) mod NEW_OBS_INTERVAL).
      { rewrite Hi1, Hi. apply Zplus_mod_idemp_l. }
      assert (Ht1 : 1 <= t + 1) by lia.
      destruct (IH st1 st (t + 1) Ht1 Hi1' H Hrun) as [IHi IHd].
      cbn [List.length]. rewrite Nat2Z.inj_succ.
      replace (t + Z.succ (Z.of_nat (List.length rest)))
        with (t + 1 + Z.of_nat (List.length rest)) by lia.
      split; [exact IHi|].
      rewrite IHd, Hd. replace (t + 1 - 1) with t by lia.
      rewrite (div_interval_step t Ht), Hi, Z.mod_mod by discriminate.
      destruct (t mod NEW_OBS_INTERVAL =? 0); lia.
Qed.

(** C5: in any run of the loop, on pass number [n] (counted from 1) the
    counter is [n mod 140]; a set is spawned on that pass exactly when [n] is
    a multiple of 140, and then exactly one; so after pass [n] the loop has
    drawn [n / 140] sets.  Whether the pass removes a set plays no part. *)
Theorem C5_spawn_every_interval :
  forall self inputs st inp st',
    game_loop inputs self = Ok st ->
    running st ->
    tick inp st = Ok st' ->
    let n := Z.of_nat (List.length inputs) + 1 in
    i st = n mod NEW_OBS_INTERVAL
    /\ (n mod NEW_OBS_INTERVAL = 0 ->
        draws_of st' = S (draws_of st)
        /\ spawned (obstacle_manager (game st)) (i st)
           = [generate (draws_of st)])
    /\ (n mod NEW_OBS_INTERVAL <> 0 ->
        draws_of st' = draws_of st
        /\ spawned (obstacle_manager (game st)) (i st) = [])
    /\ (exists oldest rest,
          map (map (Obstacle.move OBSTACLE_SPEED)) (sets_of st) = oldest :: rest
          /\ (sets_of st'
              = ((oldest :: rest)
                 ++ spawned (obstacle_manager (game st)) (i st))%list
              \/ sets_of st'
                 = (rest ++ spawned (obstacle_manager (game st)) (i st))%list))
    /\ Z.of_nat (draws_of st')
       = Z.of_nat (ObstacleManager.draws (obstacle_manager self))
         + n / NEW_OBS_INTERVAL.
Proof.
  intros self inputs st inp st' Hl Hrun Ht n.
  assert (H1 : 1 <= 1) by lia.
  destruct (while_loop_running_count inputs (start self) st 1 H1 eq_refl
              Hl Hrun) as [Hi Hd].
  replace (1 + Z.of_nat (List.length inputs)) with n in Hi, Hd by (unfold n; lia).
  apply tick_shape in Ht.
  destruct Ht as [oldest [rest [Hs [Hsets [Hd' [_ [_ _]]]]]]].
  split; [exact Hi|]. unfold spawned. rewrite Hi, Z.mod_mod by discriminate.
  rewrite Hi, Z.mod_mod in Hd' by discriminate.
  unfold spawned in Hsets. rewrite Hi, Z.mod_mod in Hsets by discriminate.
  split; [|split; [|split]].
  - intros E. rewrite E in Hd' |- *. cbn in Hd' |- *.
    split; [lia|reflexivity].
  - intros E. apply Z.eqb_neq in E. rewrite E in Hd' |- *.
    split; [lia|reflexivity].
  - exists oldest, rest. split; [exact Hs|].
    destruct (forallb Obstacle.out_of_frame oldest); auto.
  - rewrite Hd', Nat2Z.inj_add, Hd.
    assert (Hn : 1 <= n) by (unfold n; lia).
    rewrite (div_interval_step n Hn).
    change (draws_of (start self))
      with (ObstacleManager.draws (obstacle_manager self)).
    change ((1 - 1) / NEW_OBS_INTERVAL) with 0.
    destruct (n mod NEW_OBS_INTERVAL =? 0); cbn; lia.
Qed.

(** ** The first 140 passes *)

Lemma move_balls_still (inp : Input) (self : DuetGame) :
  no_steering self inp ->
  (mode self = "contr"%string -> controller self <> None) ->
  move_balls inp self = Ok self.
Proof.
  unfold move_balls. intros [[-> [-> ->]]|[Hm Hc]] Hctl; [reflexivity|].
  specialize (Hctl Hm). rewrite Hm. cbn.
  destruct (controller self) as [c|]; [|congruence].
  destruct (Hc c eq_refl) as [Hl Hr].
  apply Z.eqb_neq in Hl, Hr. rewrite Hl, Hr. reflexivity.
Qed.

Lemma moved_0 (set : list Obstacle.t) : moved 0 set = set.
Proof. unfold moved. cbn. apply map_id. Qed.

Lemma moved_S (k : nat) (set : list Obstacle.t) :
  map (Obstacle.move OBSTACLE_SPEED) (moved k set) = moved (S k) set.
Proof. unfold moved. rewrite map_map. reflexivity. Qed.

Lemma iter_move (k : nat) (o : Obstacle.t) :
  Nat.iter k (Obstacle.move OBSTACLE_SPEED) o
  = Obstacle.mk (Obstacle.x o) (Obstacle.y o + Z.of_nat k * OBSTACLE_SPEED)
      (Obstacle.width o) (Obstacle.height o).
Proof.
  induction k as [|k IH].
  - destruct o; cbn. f_equal; lia.
  - rewrite Nat.iter_succ, IH. unfold Obstacle.move.
    cbn [Obstacle.x Obstacle.y Obstacle.width Obstacle.height].
    f_equal; lia.
Qed.

(** A set with an obstacle spawned at the top of the board is still in
    frame after [k] moves, as long as [k] moves do not cover the height of
    the board. *)
Lemma moved_in_frame (k : nat) (set : list Obstacle.t) :
  0 <= OBSTACLE_SPEED ->
  OBSTACLE_SPEED * NEW_OBS_INTERVAL <= BOARD_HEIGHT ->
  (exists o, In o set /\ Obstacle.y o <= 0 /\ 0 <= Obstacle.height o) ->
  (k <= 140)%nat ->
  forallb Obstacle.out_of_frame (moved k set) = false.
Proof.
  intros Hv Hb [o [Hin [Hy Hh]]] Hk.
  destruct (forallb Obstacle.out_of_frame (moved k set)) eqn:E; [|reflexivity].
  rewrite forallb_forall in E.
  specialize (E (Nat.iter k (Obstacle.move OBSTACLE_SPEED) o)).
  unfold moved in E. rewrite iter_move in E.
  assert (Hm : In (Obstacle.mk (Obstacle.x o)
                     (Obstacle.y o + Z.of_nat k * OBSTACLE_SPEED)
                     (Obstacle.width o) (Obstacle.height o))
                  (map (fun o => Nat.iter k (Obstacle.move OBSTACLE_SPEED) o)
                       set)).
  { rewrite <- iter_move. apply in_map. exact Hin. }
  specialize (E Hm). unfold Obstacle.out_of_frame in E.
  cbn [Obstacle.y Obstacle.height] in E.
  apply Z.ltb_lt in E. unfold NEW_OBS_INTERVAL, BOARD_HEIGHT in *. nia.
Qed.

Lemma no_collision (blue red : Ball.t) (set : list Obstacle.t) :
  (forall o, In o set ->
     collided_with blue o = false /\ collided_with red o = false) ->
  check_collisions blue red set false = false.
Proof.
  intros H. rewrite check_collisions_existsb. cbn [orb].
  destruct (existsb _ set) eqn:E; [|reflexivity].
  apply existsb_exists in E. destruct E as [o [Hin Hc]].
  destruct (H o Hin) as [Hb Hr]. rewrite Hb, Hr in Hc. discriminate.
Qed.

Lemma counter_after (k : nat) :
  ((Z.of_nat k + 1) mod NEW_OBS_INTERVAL =? 0) = (S k =? 140)%nat
  \/ (140 < S k)%nat.
Proof.
  destruct (Nat.lt_ge_cases 140 (S k)) as [H|H]; [right; exact H|left].
  unfold NEW_OBS_INTERVAL.
  destruct (Nat.eqb_spec (S k) 140) as [E|E].
  - replace (Z.of_nat k + 1) with 140 by lia. reflexivity.
  - apply Z.eqb_neq. rewrite Z.mod_small; lia.
Qed.

Lemma tick_after_idle (self : DuetGame) (inp : Input) (k : nat) :
  no_steering (before_pass self k) inp ->
  (mode self = "contr"%string -> controller self <> None) ->
  QUIT inp = false ->
  0 <= OBSTACLE_SPEED ->
  OBSTACLE_SPEED * NEW_OBS_INTERVAL <= BOARD_HEIGHT ->
  (exists o, In o (generate 0%nat)
             /\ Obstacle.y o <= 0 /\ 0 <= Obstacle.height o) ->
  (forall o, In o (moved (S k) (generate 0%nat)) ->
     collided_with (blue_ball self) o = false
     /\ collided_with (red_ball self) o = false) ->
  (k < 140)%nat ->
  tick inp (after_idle self k) = Ok (after_idle self (S k)).
Proof.
  intros Hs Hc Hq Hv Hb Htop Hcol Hk.
  assert (Hlt : (k <? 140)%nat = true) by (apply Nat.ltb_lt; exact Hk).
  assert (Hin : forallb Obstacle.out_of_frame (moved (S k) (generate 0%nat))
                = false).
  { apply moved_in_frame; auto. }
  unfold tick, after_idle. rewrite Hlt. cbn [game score i game_over quit_game].
  fold (before_pass self k).
  rewrite move_balls_still; [|exact Hs|exact Hc]. cbn [bind].
  unfold before_pass.
  unfold move_obstacles, expire, oldest_out_of_frame, oldest_obstacle_set,
    remove_obstacle_set, set_obstacle_manager.
  cbn [obstacle_manager ObstacleManager.obstacle_sets
       ObstacleManager.draws map bind blue_ball red_ball mode controller].
  rewrite moved_S, Hin. cbn [bind].
  unfold spawn, new_obstacle_set, set_obstacle_manager.
  rewrite Z.mod_mod by discriminate.
  destruct (counter_after k) as [E|E]; [|lia]. rewrite E.
  rewrite Zplus_mod_idemp_l, Hq.
  replace (Z.of_nat k + 1 + 1) with (Z.of_nat (S k) + 1) by lia.
  destruct (Nat.eqb_spec (S k) 140) as [E1|E1].
  - assert (Hge : (S k <? 140)%nat = false) by (apply Nat.ltb_ge; lia).
    rewrite Hge.
    cbn [obstacle_manager ObstacleManager.obstacle_sets
         ObstacleManager.draws bind blue_ball red_ball mode controller app].
    rewrite (no_collision _ _ _ Hcol). reflexivity.
  - assert (Hlt1 : (S k <? 140)%nat = true) by (apply Nat.ltb_lt; lia).
    rewrite Hlt1.
    cbn [obstacle_manager ObstacleManager.obstacle_sets
         ObstacleManager.draws bind blue_ball red_ball mode controller app].
    rewrite (no_collision _ _ _ Hcol). reflexivity.
Qed.

Lemma while_loop_after_idle (self : DuetGame) :
  (mode self = "contr"%string -> controller self <> None) ->
  0 <= OBSTACLE_SPEED ->
  OBSTACLE_SPEED * NEW_OBS_INTERVAL <= BOARD_HEIGHT ->
  (exists o, In o (generate 0%nat)
             /\ Obstacle.y o <= 0 /\ 0 <= Obstacle.height o) ->
  (forall k o, (1 <= k <= 140)%nat -> In o (moved k (generate 0%nat)) ->
     collided_with (blue_ball self) o = false
     /\ collided_with (red_ball self) o = false) ->
  forall inputs k,
    (forall j inp, nth_error inputs j = Some inp ->
       no_steering (before_pass self (k + j)) inp /\ QUIT inp = false) ->
    (k + List.length inputs <= 140)%nat ->
    while_loop inputs (after_idle self k)
    = Ok (after_idle self (k + List.length inputs)).
Proof.
  intros Hc Hv Hb Htop Hcol.
  induction inputs as [|inp rest IH]; intros k Hin Hk.
  - cbn. rewrite Nat.add_0_r. reflexivity.
  - cbn [List.length] in Hk |- *. cbn [while_loop].
    change (game_over (after_idle self k) || quit_game (after_idle self k))
      with false. cbv iota.
    destruct (Hin 0%nat inp eq_refl) as [Hs Hq]. rewrite Nat.add_0_r in Hs.
    rewrite (tick_after_idle self inp k Hs Hc Hq Hv Hb Htop); [|
      intros o Ho; apply (Hcol (S k) o); [lia|exact Ho] | lia].
    cbn [bind]. rewrite IH; [| |lia].
    + f_equal. f_equal. lia.
    + intros j inp' H'. specialize (Hin (S j) inp' H').
      rewrite Nat.add_succ_r in Hin. exact Hin.
Qed.

(** C6, as the code has it: the constructed session starts with the blue ball
    at pi, the red ball at 0 and a manager that already holds the set spawned
    by the constructor.  In mode "man" or "contr", after exactly 140 passes
    with no steering (no arrow key held, or a decision of the controller
    other than -1 and 1, on each of these passes), no QUIT event and no
    collision, the loop has spawned exactly one further set, on pass 140,
    and the score is still 0, given that the first set started at the top of
    the board and 140 moves do not cover the height of the board.  Before
    each of these passes the session is the constructed one with the first
    set moved once per pass made. *)
Theorem C6_first_interval :
  forall m self inputs,
    __init__ m = Ok self ->
    List.length inputs = 140%nat ->
    (forall k inp, nth_error inputs k = Some inp ->
       no_steering (before_pass self k) inp /\ QUIT inp = false) ->
    0 <= OBSTACLE_SPEED ->
    OBSTACLE_SPEED * NEW_OBS_INTERVAL <= BOARD_HEIGHT ->
    (exists o, In o (generate 0%nat)
               /\ Obstacle.y o <= 0 /\ 0 <= Obstacle.height o) ->
    (forall k o, (1 <= k <= 140)%nat -> In o (moved k (generate 0%nat)) ->
       collided_with (blue_ball self) o = false
       /\ collided_with (red_ball self) o = false) ->
    Ball.theta (blue_ball self) = PI
    /\ Ball.theta (red_ball self) = 0%R
    /\ ObstacleManager.obstacle_sets (obstacle_manager self)
       = [generate 0%nat]
    /\ ObstacleManager.draws (obstacle_manager self) = 1%nat
    /\ (exists st,
          game_loop inputs self = Ok st
          /\ running st
          /\ score st = 0
          /\ draws_of st = 2%nat
          /\ sets_of st = [moved 140 (generate 0%nat); generate 1%nat]
          /\ blue_ball (game st) = blue_ball self
          /\ red_ball (game st) = red_ball self)
    /\ forall k,
         (k < 140)%nat ->
         exists st,
           game_loop (firstn k inputs) self = Ok st
           /\ running st
           /\ score st = 0
           /\ game st = before_pass self k.
Proof.
  intros m self inputs Hi Hlen Hin Hv Hb Htop Hcol.
  rewrite __init___eq in Hi. inv_Ok Hi.
  do 4 (split; [reflexivity|]).
  match goal with |- context [game_loop inputs ?g] => set (self := g) in * end.
  assert (Hc : mode self = "contr"%string -> controller self <> None).
  { unfold self. cbn. intros ->. discriminate. }
  assert (H0 : start self = after_idle self 0).
  { unfold after_idle, start, self. cbn. rewrite moved_0. reflexivity. }
  assert (Hrun : forall k, (k <= 140)%nat ->
            game_loop (firstn k inputs) self = Ok (after_idle self k)).
  { intros k Hk. unfold game_loop. rewrite H0.
    rewrite (while_loop_after_idle self Hc Hv Hb Htop Hcol).
    - rewrite List.length_firstn, Hlen, Nat.min_l by exact Hk. reflexivity.
    - intros j inp Hj. rewrite nth_error_firstn in Hj.
      destruct (j <? k)%nat; [|discriminate]. exact (Hin j inp Hj).
    - rewrite List.length_firstn, Hlen, Nat.min_l by exact Hk. cbn. lia. }
  split.
  - exists (after_idle self 140). split.
    + rewrite <- (firstn_all inputs) at 1. rewrite Hlen.
      apply Hrun. apply Nat.le_refl.
    + repeat split.
  - intros k Hk. exists (after_idle self k).
    split; [apply Hrun; lia|]. split; [split; reflexivity|].
    split; [reflexivity|].
    unfold after_idle. apply Nat.ltb_lt in Hk. rewrite Hk. reflexivity.
Qed.

(** * Further properties of the session *)

(** ** Modes *)

Lemma tick_attributes (inp : Input) (st st' : Loop) :
  tick inp st = Ok st' ->
  mode (game st') = mode (game st)
  /\ controller (game st') = controller (game st).
Proof.
  intros H. apply tick_Ok in H.
  destruct H as [self1 [self2 [score2 [oldest [H1 [H2 [_ ->]]]]]]].
  apply move_balls_in_step in H1. destruct H1 as [_ [_ [Hm Hc]]].
  destruct (expire_balls _ _ _ _ H2) as [_ [_ [Em Ec]]].
  destruct (spawn_balls self2 (i st)) as [_ [_ [Sm Sc]]].
  cbn [game]. rewrite Sm, Sc, Em, Ec. cbn. auto.
Qed.

(** X1: a mode other than "man", "contr" and "ai" is not rejected by the
    constructor; [move_balls] raises ValueError with the mode quoted in its
    message, so the first pass of the loop raises it. *)
Theorem X1_invalid_mode_raises_at_first_pass :
  forall (m : string) (keys : Input),
    m <> "man"%string -> m <> "contr"%string -> m <> "ai"%string ->
    exists self,
      __init__ m = Ok self
      /\ move_balls keys self
         = Raise (ValueError ("Invalid game mode '" ++ m ++ "'")%string)
      /\ forall rest,
           game_loop (keys :: rest) self
           = Raise (ValueError ("Invalid game mode '" ++ m ++ "'")%string).
Proof.
  intros m keys Hman Hcontr Hai.
  apply String.eqb_neq in Hman, Hcontr, Hai.
  rewrite __init___eq. eexists. split; [reflexivity|].
  assert (E : forall g, mode g = m ->
                move_balls keys g
                = Raise (ValueError ("Invalid game mode '" ++ m ++ "'")%string)).
  { intros g Hg. unfold move_balls. rewrite Hg, Hman, Hcontr, Hai.
    reflexivity. }
  split; [apply E; reflexivity|].
  intros rest. unfold game_loop. cbn [while_loop start game_over quit_game orb].
  unfold tick. cbn [game start]. rewrite E by reflexivity. reflexivity.
Qed.

(** X2: on a session made by the constructor, [move_balls] returns normally
    exactly in the modes "man" and "contr", and it never fails for want of
    the controller. *)
Theorem X2_move_balls_returns_iff_man_or_contr :
  forall (m : string) (self : DuetGame) (keys : Input),
    __init__ m = Ok self ->
    ((exists self', move_balls keys self = Ok self')
     <-> (m = "man"%string \/ m = "contr"%string))
    /\ forall name, move_balls keys self <> Raise (AttributeError name).
Proof.
  intros m self keys Hi. rewrite __init___eq in Hi. inv_Ok Hi.
  unfold move_balls. cbn [mode controller].
  destruct (String.eqb_spec m "man") as [->|Hman].
  { cbn. split; [|destruct (K_LEFT keys), (K_RIGHT keys); discriminate].
    split; [auto|]. intros _.
    destruct (K_LEFT keys), (K_RIGHT keys); eauto. }
  destruct (String.eqb_spec m "contr") as [->|Hcontr].
  { cbv zeta.
    match goal with
    | |- context [get_controll ?c ?o ?p ?q =? -1] =>
        generalize (get_controll c o p q)
    end.
    intros d. split; [|destruct (d =? -1), (d =? 1); discriminate].
    split; [auto|]. intros _.
    destruct (d =? -1), (d =? 1); eauto. }
  destruct (String.eqb_spec m "ai") as [->|Hai].
  { split; [|discriminate]. split; [intros [? H]; discriminate|].
    intros [H|H]; discriminate. }
  split; [|discriminate]. split; [intros [? H]; discriminate|].
  intros [H|H]; contradiction.
Qed.

(** X3: in mode "man" the left arrow wins: with it held both balls spin
    left, whether or not the right arrow is held too. *)
Theorem X3_left_key_wins :
  forall (keys : Input) (self : DuetGame),
    mode self = "man"%string ->
    K_LEFT keys = true ->
    move_balls keys self
    = Ok (set_balls self (Ball.spin_left (blue_ball self))
                         (Ball.spin_left (red_ball self)))
    /\ move_balls keys self
       = move_balls (mkInput true (negb (K_RIGHT keys)) (QUIT keys)) self.
Proof.
  intros keys self Hm Hl. unfold move_balls. rewrite Hm, Hl. cbn. auto.
Qed.

Lemma move_balls_contr_keys (keys keys' : Input) (self : DuetGame) :
  mode self = "contr"%string ->
  move_balls keys self = move_balls keys' self.
Proof.
  intros Hm. unfold move_balls. rewrite Hm. reflexivity.
Qed.

Lemma tick_contr_keys (inp inp' : Input) (st : Loop) :
  mode (game st) = "contr"%string ->
  QUIT inp = QUIT inp' ->
  tick inp st = tick inp' st.
Proof.
  intros Hm Hq. unfold tick.
  rewrite (move_balls_contr_keys inp inp' (game st) Hm), Hq. reflexivity.
Qed.

(** X4: in mode "contr" the keyboard plays no part in the game: two runs of
    inputs that agree on the QUIT events give the same game, whatever arrow
    keys are held in either. *)
Theorem X4_contr_ignores_keys :
  forall (inputs inputs' : list Input) (self : DuetGame),
    mode self = "contr"%string ->
    map QUIT inputs = map QUIT inputs' ->
    game_loop inputs self = game_loop inputs' self.
Proof.
  intros inputs inputs' self Hm. unfold game_loop.
  assert (Hs : mode (game (start self)) = "contr"%string) by exact Hm.
  generalize dependent (start self). clear Hm self. revert inputs'.
  induction inputs as [|inp rest IH]; intros inputs' st Hm Hq;
    destruct inputs' as [|inp' rest']; try discriminate; [reflexivity|].
  cbn [map] in Hq. injection Hq as Hq Hrest. cbn [while_loop].
  destruct (game_over st || quit_game st); [reflexivity|].
  rewrite (tick_contr_keys inp inp' st Hm Hq).
  destruct (tick inp' st) as [st1|e] eqn:Ht; cbn [bind]; [|reflexivity].
  apply IH; [|exact Hrest].
  destruct (tick_attributes _ _ _ Ht) as [Hm1 _]. rewrite Hm1. exact Hm.
Qed.

(** ** Failures of a pass *)

Lemma tick_Raise (inp : Input) (st : Loop) (e : exn) :
  tick inp st = Raise e ->
  move_balls inp (game st) = Raise e
  \/ (e = IndexError
      /\ (sets_of st = []
          \/ exists s,
               sets_of st = [s]
               /\ forallb Obstacle.out_of_frame
                    (map (Obstacle.move OBSTACLE_SPEED) s) = true
               /\ i st mod NEW_OBS_INTERVAL <> 0)).
Proof.
  unfold tick, sets_of.
  destruct (move_balls inp (game st)) as [self1|e1] eqn:Hmb; cbn [bind];
    [|intros H; left; injection H as <-; reflexivity].
  destruct (move_balls_in_step _ _ _ Hmb) as [_ [Hom _]].
  unfold expire, oldest_out_of_frame, oldest_obstacle_set,
    remove_obstacle_set, move_obstacles, set_obstacle_manager, spawn,
    new_obstacle_set.
  cbn [obstacle_manager ObstacleManager.obstacle_sets ObstacleManager.draws].
  rewrite Hom.
  destruct (ObstacleManager.obstacle_sets (obstacle_manager (game st)))
    as [|s rest]; cbn [map bind].
  - intros H. injection H as <-. right. split; [reflexivity|]. left.
    reflexivity.
  - destruct (forallb Obstacle.out_of_frame
                (map (Obstacle.move OBSTACLE_SPEED) s)) eqn:Hf;
      cbn [bind];
      destruct (i st mod NEW_OBS_INTERVAL =? 0) eqn:Hi;
      cbn [obstacle_manager ObstacleManager.obstacle_sets
           ObstacleManager.draws bind app];
      try discriminate;
      destruct rest as [|s2 rest];
      cbn [map app bind]; try discriminate.
    intros H. injection H as <-. right. split; [reflexivity|]. right.
    exists s. split; [reflexivity|]. split; [exact Hf|].
    apply Z.eqb_neq. exact Hi.
Qed.

(** X5: a pass can fail in two ways only: [move_balls] raises, or the
    obstacle manager is found empty (IndexError), which happens when it holds
    no set at all or when its only set leaves the frame on a pass that spawns
    nothing. *)
Theorem X5_pass_raises_iff :
  forall (inp : Input) (st : Loop) (e : exn),
    tick inp st = Raise e
    <-> (move_balls inp (game st) = Raise e
         \/ (e = IndexError
             /\ (exists self1, move_balls inp (game st) = Ok self1)
             /\ (sets_of st = []
                 \/ exists s,
                      sets_of st = [s]
                      /\ forallb Obstacle.out_of_frame
                           (map (Obstacle.move OBSTACLE_SPEED) s) = true
                      /\ i st mod NEW_OBS_INTERVAL <> 0))).
Proof.
  intros inp st e. split.
  - intros H. destruct (tick_Raise inp st e H) as [Hm|[He Hs]];
      [left; exact Hm|].
    destruct (move_balls inp (game st)) as [self1|e1] eqn:Hmb.
    + right. split; [exact He|]. split; [eauto|exact Hs].
    + left. unfold tick in H. rewrite Hmb in H. cbn [bind] in H.
      injection H as <-. reflexivity.
  - intros [Hm|[-> [[self1 Hmb] Hs]]].
    + unfold tick. rewrite Hm. reflexivity.
    + destruct (move_balls_in_step _ _ _ Hmb) as [_ [Hom _]].
      unfold tick, sets_of in *. rewrite Hmb. cbn [bind].
      unfold expire, oldest_out_of_frame, oldest_obstacle_set,
        remove_obstacle_set, move_obstacles, set_obstacle_manager, spawn,
        new_obstacle_set.
      cbn [obstacle_manager ObstacleManager.obstacle_sets
           ObstacleManager.draws].
      rewrite Hom. destruct Hs as [->|[s [-> [Hf Hi]]]]; [reflexivity|].
      cbn [map bind]. rewrite Hf. cbn [bind].
      apply Z.eqb_neq in Hi. rewrite Hi. reflexivity.
Qed.

(** ** Leaving the loop *)

(** X6: a QUIT event ends the loop, but only once the pass it arrives on has
    been made in full; later inputs are not read and, with no collision on
    that pass, [game_loop] returns True without showing the prompt. *)
Theorem X6_quit_ends_loop_after_the_pass :
  forall (inp : Input) (st st' : Loop) (rest : list Input)
         (polls : list Poll),
    running st ->
    tick inp st = Ok st' ->
    QUIT inp = true ->
    quit_game st' = true
    /\ while_loop (inp :: rest) st = Ok st'
    /\ (game_over st' = false ->
        loop_return (inp :: rest) polls st = Ok (Some true)).
Proof.
  intros inp st st' rest polls [Hgo Hq] Ht HQ.
  assert (Hq' : quit_game st' = true).
  { apply tick_shape in Ht.
    destruct Ht as [_ [_ [_ [_ [_ [_ [_ ->]]]]]]]. rewrite HQ. reflexivity. }
  assert (Hw : while_loop (inp :: rest) st = Ok st').
  { cbn [while_loop]. rewrite Hgo, Hq. cbn [orb]. rewrite Ht. cbn [bind].
    apply while_loop_stopped. right. exact Hq'. }
  split; [exact Hq'|]. split; [exact Hw|].
  intros Hno. unfold loop_return. rewrite Hw. cbn [bind].
  rewrite Hno, Hq'. reflexivity.
Qed.

(** X7: after a pass that ends in a collision the value returned by
    [game_loop] is the answer given at the prompt, whatever [quit_game] was:
    a QUIT event that arrived on the colliding pass is forgotten when the
    player then asks for a restart. *)
Theorem X7_prompt_answer_replaces_quit :
  forall (inp : Input) (st st' : Loop) (rest : list Input)
         (polls : list Poll),
    running st ->
    tick inp st = Ok st' ->
    game_over st' = true ->
    loop_return (inp :: rest) polls st = Ok (DuetGame_game_over polls).
Proof.
  intros inp st st' rest polls [Hgo Hq] Ht Hover.
  unfold loop_return. cbn [while_loop]. rewrite Hgo, Hq. cbn [orb].
  rewrite Ht. cbn [bind].
  rewrite while_loop_stopped by (left; exact Hover). cbn [bind].
  rewrite Hover. reflexivity.
Qed.

(** ** The prompt *)

Lemma game_over_while_stopped (polls : list Poll) (q r : bool) :
  q || r = true -> game_over_while polls q r = Some q.
Proof. intros H. destruct polls; cbn; rewrite H; reflexivity. Qed.

Lemma game_over_while_skip (p : Poll) (rest : list Poll) :
  decisive p = false ->
  game_over_while (p :: rest) false false = game_over_while rest false false.
Proof.
  unfold decisive. destruct p as [[|] [|] [|]]; cbn; try discriminate.
  reflexivity.
Qed.

Lemma game_over_while_decides (p : Poll) (rest : list Poll) :
  decisive p = true ->
  game_over_while (p :: rest) false false
  = Some (K_ESCAPE p || QUIT_seen p).
Proof.
  unfold decisive. destruct p as [[|] [|] [|]]; cbn [K_ESCAPE K_RETURN
    QUIT_seen orb]; try discriminate; intros _; cbn [game_over_while orb
    K_ESCAPE K_RETURN QUIT_seen]; apply game_over_while_stopped; reflexivity.
Qed.

(** X9: the prompt skips the polls at which nothing is held and no event
    waits, and answers at the first other poll: True (quit) when ESCAPE is
    held or the window was closed, False (restart) when only RETURN is
    held.  ESCAPE and a QUIT event both win over RETURN. *)
Theorem X9_prompt_answers_at_first_decisive_poll :
  forall (quiet : list Poll) (p : Poll) (rest : list Poll),
    Forall (fun q => decisive q = false) quiet ->
    decisive p = true ->
    DuetGame_game_over (quiet ++ p :: rest)
    = Some (K_ESCAPE p || QUIT_seen p).
Proof.
  unfold DuetGame_game_over. intros quiet p rest Hq Hp.
  induction Hq as [|q quiet Hq0 _ IH]; cbn [app].
  - apply game_over_while_decides. exact Hp.
  - rewrite game_over_while_skip by exact Hq0. exact IH.
Qed.

(** X10: the prompt never answers by itself: it is still waiting after the
    given polls exactly when none of them was decisive. *)
Theorem X10_prompt_waits_iff_nothing_happens :
  forall polls : list Poll,
    DuetGame_game_over polls = None
    <-> Forall (fun q => decisive q = false) polls.
Proof.
  unfold DuetGame_game_over. induction polls as [|p polls IH].
  - split; [constructor|reflexivity].
  - destruct (decisive p) eqn:Hp.
    + rewrite game_over_while_decides by exact Hp. split; [discriminate|].
      intros H. inversion H; subst. congruence.
    + rewrite game_over_while_skip by exact Hp. rewrite IH. split.
      * intros H. constructor; assumption.
      * intros H. inversion H; assumption.
Qed.


(** ** The obstacle sets along a run *)

Lemma tick_sets_nonempty (inp : Input) (st st' : Loop) :
  tick inp st = Ok st' -> sets_of st' <> [].
Proof.
  intros H. apply tick_Ok in H.
  destruct H as [self1 [self2 [score2 [oldest [_ [_ [H3 ->]]]]]]].
  unfold sets_of. cbn [game]. unfold oldest_obstacle_set in H3.
  destruct (ObstacleManager.obstacle_sets
              (obstacle_manager (spawn self2 (i st)))); discriminate.
Qed.

Lemma interval_succ (k : nat) :
  if (Z.of_nat k + 1) mod NEW_OBS_INTERVAL =? 0
  then (S k / 140 = S (k / 140) /\ S k = 140 * S (k / 140))%nat
  else (S k / 140 = k / 140)%nat.
Proof.
  unfold NEW_OBS_INTERVAL.
  assert (H0 : Z.of_nat (k / 140) = Z.of_nat k / 140)
    by (rewrite Nat2Z.inj_div; reflexivity).
  assert (H1 : Z.of_nat (S k / 140) = (Z.of_nat k + 1) / 140)
    by (rewrite Nat2Z.inj_div, Nat2Z.inj_succ; reflexivity).
  destruct ((Z.of_nat k + 1) mod 140 =? 0) eqn:E;
    [apply Z.eqb_eq in E | apply Z.eqb_neq in E].
  - split; apply Nat2Z.inj;
      [rewrite H1, Nat2Z.inj_succ, H0
      |rewrite Nat2Z.inj_mul, !Nat2Z.inj_succ, H0];
      Z.div_mod_to_equations; lia.
  - apply Nat2Z.inj. rewrite H1, H0. Z.div_mod_to_equations. lia.
Qed.

Lemma interval_floor (k : nat) : (140 * (k / 140) <= k < 140 * S (k / 140))%nat.
Proof.
  pose proof (Nat.div_mod_eq k 140) as H.
  pose proof (Nat.mod_upper_bound k 140) as Hm. lia.
Qed.

Lemma window_S (k first n : nat) :
  window k first (S n)
  = moved (k - 140 * first) (generate first) :: window k (S first) n.
Proof. reflexivity. Qed.

Lemma window_snoc (k first n : nat) :
  window k first (S n)
  = (window k first n
     ++ [moved (k - 140 * (first + n)) (generate (first + n))])%list.
Proof. unfold window. rewrite seq_S, map_app. reflexivity. Qed.

Lemma window_length (k first n : nat) :
  List.length (window k first n) = n.
Proof. unfold window. rewrite List.length_map. apply List.length_seq. Qed.

Lemma window_move (k first n : nat) :
  (140 * (first + n) <= k + 140)%nat ->
  map (map (Obstacle.move OBSTACLE_SPEED)) (window k first n)
  = window (S k) first n.
Proof.
  intros H. unfold window. rewrite map_map. apply map_ext_in.
  intros j Hj. apply in_seq in Hj. rewrite moved_S. f_equal. lia.
Qed.

Lemma in_order_start (m : string) (self : DuetGame) :
  __init__ m = Ok self -> in_order 0 (start self).
Proof.
  rewrite __init___eq. intros H. inv_Ok H.
  split; [reflexivity|]. split; [reflexivity|].
  exists 0%nat. split; [reflexivity|]. split; [apply Nat.le_refl|].
  unfold sets_of, window. cbn. rewrite moved_0. reflexivity.
Qed.

Lemma in_order_tick (k : nat) (inp : Input) (st st' : Loop) :
  in_order k st -> tick inp st = Ok st' -> in_order (S k) st'.
Proof.
  intros [Hi [Hd [first [Hsc [Hle Hsets]]]]] Ht.
  pose proof (tick_sets_nonempty _ _ _ Ht) as Hne.
  apply tick_shape in Ht.
  destruct Ht as [oldest [rest [Hs [Hsets' [Hd' [Hsc' [Hi' _]]]]]]].
  pose proof (interval_succ k) as Hk.
  pose proof (interval_floor k) as Hfl.
  unfold spawned in Hsets'. fold (draws_of st) in Hsets'.
  rewrite Hi, Z.mod_mod in Hd', Hsets' by discriminate. rewrite Hd in *.
  replace (S (k / 140) - first)%nat with (S (k / 140 - first)) in Hsets
    by lia.
  rewrite Hsets, window_move, window_S in Hs by lia.
  match type of Hs with
  | ?a :: ?b = _ =>
      assert (Ho : oldest = a) by congruence;
      assert (Hr : rest = b) by congruence
  end.
  subst oldest rest. clear Hs.
  split.
  { rewrite Hi', Hi, Zplus_mod_idemp_l. f_equal. lia. }
  destruct ((Z.of_nat k + 1) mod NEW_OBS_INTERVAL =? 0).
  - destruct Hk as [Hk1 Hk2]. rewrite Hk1. split; [lia|].
    destruct (forallb Obstacle.out_of_frame _).
    + exists (S first). split; [lia|]. split; [lia|]. rewrite Hsets'.
      replace (S (S (k / 140)) - S first)%nat with (S (k / 140 - first))
        by lia.
      rewrite window_snoc.
      replace (S first + (k / 140 - first))%nat with (S (k / 140)) by lia.
      replace (S k - 140 * S (k / 140))%nat with 0%nat by lia.
      rewrite moved_0. reflexivity.
    + exists first. split; [lia|]. split; [lia|]. rewrite Hsets'.
      replace (S (S (k / 140)) - first)%nat with (S (S (k / 140 - first)))
        by lia.
      rewrite (window_snoc (S k) first (S (k / 140 - first))), window_S.
      replace (first + S (k / 140 - first))%nat with (S (k / 140)) by lia.
      replace (S k - 140 * S (k / 140))%nat with 0%nat by lia.
      rewrite moved_0. reflexivity.
  - rewrite Hk. split; [lia|]. rewrite app_nil_r in Hsets'.
    destruct (forallb Obstacle.out_of_frame _).
    + exists (S first).
      assert (Hlt : (first < k / 140)%nat).
      { destruct (Nat.eq_dec first (k / 140)) as [E|E]; [|lia].
        exfalso. apply Hne. rewrite Hsets', E, Nat.sub_diag. reflexivity. }
      split; [lia|]. split; [lia|]. rewrite Hsets'. f_equal; lia.
    + exists first. split; [lia|]. split; [lia|]. rewrite Hsets', <- window_S.
      f_equal; lia.
Qed.

Lemma in_order_passes (n k : nat) (st st' : Loop) :
  passes n st st' -> in_order k st -> in_order (k + n) st'.
Proof.
  intros H. revert k. induction H as [st|n st inp st1 st' Hr Ht _ IH];
    intros k Hk.
  - rewrite Nat.add_0_r. exact Hk.
  - rewrite Nat.add_succ_r. apply (IH (S k)).
    exact (in_order_tick k inp st st1 Hk Ht).
Qed.

(** X11: after [n] passes of a game, whatever was steered, the manager holds
    the sets drawn from number [score] on, oldest first and without a gap,
    up to the one drawn last, [1 + n / 140] having been drawn in all; the set
    drawn as number [j] arrived on pass [140 * j] and has moved once per
    pass since. *)
Theorem X11_sets_held_in_order_of_arrival :
  forall (m : string) (self : DuetGame) (n : nat) (st : Loop),
    __init__ m = Ok self ->
    passes n (start self) st ->
    draws_of st = S (n / 140)
    /\ exists first : nat,
         score st = Z.of_nat first
         /\ (first <= n / 140)%nat
         /\ sets_of st
            = map (fun j => moved (n - 140 * j) (generate j))
                  (seq first (S (n / 140) - first)).
Proof.
  intros m self n st Hi Hp.
  destruct (in_order_passes n 0 _ _ Hp (in_order_start m self Hi))
    as [_ [Hd Hw]].
  split; [exact Hd|exact Hw].
Qed.

Lemma while_loop_passes (inputs : list Input) (st st' : Loop) :
  while_loop inputs st = Ok st' ->
  exists n, (n <= List.length inputs)%nat /\ passes n st st'.
Proof.
  revert st. induction inputs as [|inp rest IH]; intros st H.
  - cbn in H. exists 0%nat. split; [apply Nat.le_refl|].
    destruct (game_over st || quit_game st); inv_Ok H; constructor.
  - cbn [while_loop] in H.
    destruct (game_over st || quit_game st) eqn:E.
    + inv_Ok H. exists 0%nat. split; [apply Nat.le_0_l|constructor].
    + apply orb_false_iff in E. apply bind_Ok in H.
      destruct H as [st1 [Ht H]]. destruct (IH st1 H) as [n [Hn Hp]].
      exists (S n). split; [cbn; lia|].
      exact (passes_S n st inp st1 st' E Ht Hp).
Qed.

(** X12: at every state that [game_loop] reaches, the counter is within the
    interval, the score counts the sets removed so far, every set drawn is
    either held or counted in the score, and at least one set is held. *)
Theorem X12_score_counts_removed_sets :
  forall (m : string) (self : DuetGame) (inputs : list Input) (st : Loop),
    __init__ m = Ok self ->
    game_loop inputs self = Ok st ->
    0 <= i st < NEW_OBS_INTERVAL
    /\ 0 <= score st
    /\ Z.of_nat (List.length (sets_of st)) + score st
       = Z.of_nat (draws_of st)
    /\ (1 <= List.length (sets_of st))%nat.
Proof.
  intros m self inputs st Hi Hl.
  destruct (while_loop_passes inputs _ _ Hl) as [n [_ Hp]].
  destruct (in_order_passes n 0 _ _ Hp (in_order_start m self Hi))
    as [Hc [Hd [first [Hsc [Hle Hsets]]]]].
  cbn [Nat.add] in *. rewrite Hc, Hd, Hsc, Hsets, window_length.
  split; [apply Z.mod_pos_bound; reflexivity|]. lia.
Qed.

(** ** A game that cannot fail *)

Lemma move_balls_steerable (inp : Input) (self : DuetGame) :
  steerable self -> exists self', move_balls inp self = Ok self'.
Proof.
  unfold move_balls. intros [Hm|[Hm Hc]]; rewrite Hm; cbn.
  - destruct (K_LEFT inp), (K_RIGHT inp); eauto.
  - destruct (controller self) as [c|]; [|congruence].
    destruct (_ =? -1); [eauto|]. destruct (_ =? 1); eauto.
Qed.

Lemma tick_in_order_returns (k : nat) (inp : Input) (st : Loop) :
  0 <= OBSTACLE_SPEED ->
  OBSTACLE_SPEED * NEW_OBS_INTERVAL <= BOARD_HEIGHT ->
  (forall j, exists o, In o (generate j)
                       /\ Obstacle.y o <= 0 /\ 0 <= Obstacle.height o) ->
  steerable (game st) ->
  in_order k st ->
  exists st', tick inp st = Ok st'.
Proof.
  intros Hv Hb Htop Hst [_ [_ [first [_ [Hle Hsets]]]]].
  destruct (tick inp st) as [st'|e] eqn:E; [eauto|exfalso].
  pose proof (interval_floor k) as Hfl.
  replace (S (k / 140) - first)%nat with (S (k / 140 - first)) in Hsets
    by lia.
  rewrite window_S in Hsets.
  destruct (tick_Raise inp st e E) as [Hm|[_ [Hs|[s [Hs [Hf _]]]]]].
  - destruct (move_balls_steerable inp _ Hst) as [g Hg]. congruence.
  - rewrite Hs in Hsets. discriminate.
  - rewrite Hs in Hsets.
    match type of Hsets with
    | [_] = ?a :: ?b =>
        assert (Ha : s = a) by congruence;
        assert (Hnil : b = []) by congruence
    end.
    apply (f_equal (@List.length _)) in Hnil.
    rewrite window_length in Hnil. cbn [List.length] in Hnil. subst s.
    rewrite moved_S, moved_in_frame in Hf; [discriminate|auto|auto|auto|lia].
Qed.

Lemma while_loop_in_order_returns :
  0 <= OBSTACLE_SPEED ->
  OBSTACLE_SPEED * NEW_OBS_INTERVAL <= BOARD_HEIGHT ->
  (forall j, exists o, In o (generate j)
                       /\ Obstacle.y o <= 0 /\ 0 <= Obstacle.height o) ->
  forall inputs k st,
    steerable (game st) ->
    in_order k st ->
    exists st', while_loop inputs st = Ok st'.
Proof.
  intros Hv Hb Htop. induction inputs as [|inp rest IH]; intros k st Hst Hk.
  - cbn. destruct (game_over st || quit_game st); eauto.
  - cbn [while_loop]. destruct (game_over st || quit_game st); [eauto|].
    destruct (tick_in_order_returns k inp st Hv Hb Htop Hst Hk) as [st1 Ht].
    rewrite Ht. cbn [bind]. apply (IH (S k)).
    + destruct (tick_attributes _ _ _ Ht) as [Hm Hc].
      unfold steerable. rewrite Hm, Hc. exact Hst.
    + exact (in_order_tick k inp st st1 Hk Ht).
Qed.

(** X13: a game in mode "man" or "contr" never raises, whatever the player
    or the controller does and however long it lasts, provided the obstacles
    do not scroll faster than the height of the board per interval and every
    set has an obstacle that starts at the top of the board: the manager is
    then never found empty. *)
Theorem X13_game_never_raises :
  forall (m : string) (self : DuetGame) (inputs : list Input),
    __init__ m = Ok self ->
    m = "man"%string \/ m = "contr"%string ->
    0 <= OBSTACLE_SPEED ->
    OBSTACLE_SPEED * NEW_OBS_INTERVAL <= BOARD_HEIGHT ->
    (forall j, exists o, In o (generate j)
                         /\ Obstacle.y o <= 0 /\ 0 <= Obstacle.height o) ->
    exists st, game_loop inputs self = Ok st.
Proof.
  intros m self inputs Hi Hm Hv Hb Htop.
  apply (while_loop_in_order_returns Hv Hb Htop inputs 0%nat).
  - rewrite __init___eq in Hi. inv_Ok Hi. unfold steerable. cbn.
    destruct Hm as [-> | ->]; [left; reflexivity|right].
    split; [reflexivity|discriminate].
  - exact (in_order_start m self Hi).
Qed.


Lemma while_loop_passes_running (inputs : list Input) (st st' : Loop) :
  while_loop inputs st = Ok st' ->
  running st' ->
  passes (List.length inputs) st st'.
Proof.
  revert st. induction inputs as [|inp rest IH]; intros st H Hr.
  - cbn in H. destruct (game_over st || quit_game st); inv_Ok H; constructor.
  - cbn [while_loop] in H.
    destruct (game_over st || quit_game st) eqn:E.
    + inv_Ok H. destruct Hr as [Hg Hq]. rewrite Hg, Hq in E. discriminate.
    + apply orb_false_iff in E. apply bind_Ok in H.
      destruct H as [st1 [Ht H]].
      exact (passes_S _ st inp st1 st' E Ht (IH st1 H Hr)).
Qed.

End Game.

(** * The properties on the concrete choice *)

(** The states named above are states of an idle game in mode "man". *)
Example demo_leaving_reached :
  game_loop demo_speed demo_generate demo_position demo_collided_with
    demo_get_controll (repeat idle 247) (demo_session "man")
  = Ok demo_leaving.
Proof. vm_compute. reflexivity. Qed.

Example demo_near_reached :
  game_loop demo_speed demo_generate demo_position demo_collided_with
    demo_get_controll (repeat idle 343) (demo_session "man")
  = Ok demo_near.
Proof. vm_compute. reflexivity. Qed.

(** C1, the claim as stated fails: constructing a session in mode "ai" raises
    nothing. *)
Lemma C1_ai_construction_does_not_raise :
  ~ (exists e, __init__ demo_generate "ai" = Raise e).
Proof. intros [e H]. discriminate H. Qed.

(** Evaluation that leaves the angles as they are written. *)
Ltac run := cbv -[Ball.spin_left Ball.spin_right PI SPIN_STEP IZR].

(** C2 at work: after a pass steering left and a pass steering right the
    balls are opposite. *)
Lemma C2_balls_rotate_together_witness :
  exists st,
    game_loop demo_speed demo_generate demo_position demo_collided_with
      demo_get_controll [hold_left; hold_right] (demo_session "man") = Ok st
    /\ blue_ball (game st)
       = Ball.spin_right (Ball.spin_left (fst init_balls))
    /\ red_ball (game st)
       = Ball.spin_right (Ball.spin_left (snd init_balls))
    /\ Ball.opposite (blue_ball (game st)) (red_ball (game st)).
Proof.
  eexists. split; [run; reflexivity|].
  split; [reflexivity|]. split; [reflexivity|].
  apply (proj2 (proj2 (C2_balls_rotate_together demo_speed demo_generate
                         demo_position demo_collided_with demo_get_controll))
           "man"%string (demo_session "man") [hold_left; hold_right]).
  - reflexivity.
  - run; reflexivity.
Defined.

(** C3 at work: on pass 344 the left bar reaches the blue ball and the loop
    is over. *)
Lemma C3_collision_against_oldest_set_only_witness :
  running demo_near
  /\ tick demo_speed demo_generate demo_position demo_collided_with
       demo_get_controll idle demo_near = Ok demo_hit
  /\ game_over demo_hit = true
  /\ forall more,
       while_loop demo_speed demo_generate demo_position demo_collided_with
         demo_get_controll more demo_hit = Ok demo_hit.
Proof.
  assert (Hr : running demo_near) by (split; reflexivity).
  assert (Ht : tick demo_speed demo_generate demo_position demo_collided_with
                 demo_get_controll idle demo_near = Ok demo_hit)
    by (run; reflexivity).
  split; [exact Hr|]. split; [exact Ht|]. split; [reflexivity|].
  destruct (C3_collision_against_oldest_set_only demo_speed demo_generate
              demo_position demo_collided_with demo_get_controll
              idle demo_near demo_hit Hr Ht)
    as [oldest [rest [_ [_ [_ Hstop]]]]].
  apply Hstop. reflexivity.
Defined.

(** C4 at work: on pass 248 the first bar leaves the frame and scores. *)
Lemma C4_one_removal_one_point_witness :
  tick demo_speed demo_generate demo_position demo_collided_with
    demo_get_controll idle demo_leaving = Ok demo_left
  /\ score demo_left = score demo_leaving + 1
  /\ sets_of demo_left = [[Obstacle.mk 0 432 270 30]].
Proof.
  assert (Ht : tick demo_speed demo_generate demo_position demo_collided_with
                 demo_get_controll idle demo_leaving = Ok demo_left)
    by (run; reflexivity).
  split; [exact Ht|].
  destruct (C4_one_removal_one_point demo_speed demo_generate
              demo_position demo_collided_with demo_get_controll
              idle demo_leaving demo_left Ht)
    as [oldest [rest [Hs [Hout _]]]].
  vm_compute in Hs. injection Hs as <- <-.
  destruct (Hout eq_refl) as [Hscore Hsets]. split; [exact Hscore|].
  exact Hsets.
Defined.

(** C5 at work: pass 140 of an idle game is the first to spawn. *)
Lemma C5_spawn_every_interval_witness :
  game_loop demo_speed demo_generate demo_position demo_collided_with
    demo_get_controll (repeat idle 139) (demo_session "man")
  = Ok demo_before_spawn
  /\ running demo_before_spawn
  /\ tick demo_speed demo_generate demo_position demo_collided_with
       demo_get_controll idle demo_before_spawn = Ok demo_spawned
  /\ i demo_before_spawn = 0
  /\ draws_of demo_spawned = S (draws_of demo_before_spawn).
Proof.
  assert (Hl : game_loop demo_speed demo_generate demo_position
                 demo_collided_with demo_get_controll (repeat idle 139)
                 (demo_session "man") = Ok demo_before_spawn)
    by (vm_compute; reflexivity).
  assert (Hr : running demo_before_spawn) by (split; reflexivity).
  assert (Ht : tick demo_speed demo_generate demo_position demo_collided_with
                 demo_get_controll idle demo_before_spawn = Ok demo_spawned)
    by (run; reflexivity).
  split; [exact Hl|]. split; [exact Hr|]. split; [exact Ht|].
  destruct (C5_spawn_every_interval demo_speed demo_generate
              demo_position demo_collided_with demo_get_controll
              (demo_session "man") (repeat idle 139) demo_before_spawn idle
              demo_spawned Hl Hr Ht)
    as [Hi [Hsp _]].
  split; [exact Hi|]. exact (proj1 (Hsp eq_refl)).
Defined.

Lemma demo_no_collision (m : string) (k : nat) (o : Obstacle.t) :
  In o (moved demo_speed k (demo_generate 0)) ->
  demo_collided_with (blue_ball (demo_session m)) o = false
  /\ demo_collided_with (red_ball (demo_session m)) o = false.
Proof.
  unfold moved. cbn [demo_generate Nat.even map In].
  intros [<-|[]]. rewrite iter_move. split; reflexivity.
Qed.

Lemma demo_hold_no_steering (k : nat) (inp : Input) :
  nth_error (repeat idle 140) k = Some inp ->
  no_steering demo_position demo_hold_then_left
    (before_pass demo_speed demo_generate (demo_session "contr") k) inp
  /\ QUIT inp = false.
Proof.
  intros H.
  assert (Hk : (k < 140)%nat).
  { rewrite <- (repeat_length idle 140). apply nth_error_Some. congruence. }
  apply nth_error_In, repeat_spec in H. subst inp.
  split; [|reflexivity]. right. split; [reflexivity|]. intros c _.
  unfold before_pass, get_obstacles, moved, demo_hold_then_left.
  cbn [obstacle_manager set_obstacle_manager ObstacleManager.obstacle_sets
       demo_generate Nat.even map List.concat app].
  rewrite iter_move. cbn [Obstacle.y].
  destruct (Z.ltb_spec (0 + Z.of_nat k * demo_speed) 600) as [_|Hge];
    [split; discriminate|].
  unfold demo_speed in Hge. lia.
Qed.

(** C6 at work: the first 140 passes of a game in mode "contr" whose
    controller holds as long as the first bar is above y = 600. *)
Lemma C6_first_interval_witness :
  exists st,
    game_loop demo_speed demo_generate demo_position demo_collided_with
      demo_hold_then_left (repeat idle 140) (demo_session "contr") = Ok st
    /\ score st = 0
    /\ draws_of st = 2%nat
    /\ sets_of st = [moved demo_speed 140 (demo_generate 0); demo_generate 1].
Proof.
  destruct (C6_first_interval demo_speed demo_generate demo_position
              demo_collided_with demo_hold_then_left
              "contr"%string (demo_session "contr") (repeat idle 140))
    as [_ [_ [_ [_ [[st [Hl [_ [Hs [Hd [Hsets _]]]]]] _]]]]].
  - reflexivity.
  - apply repeat_length.
  - apply demo_hold_no_steering.
  - unfold demo_speed. lia.
  - unfold demo_speed, NEW_OBS_INTERVAL, BOARD_HEIGHT. lia.
  - exists (Obstacle.mk 220 0 100 30).
    split; [left; reflexivity|]. cbn. lia.
  - intros k o _. apply demo_no_collision.
  - exists st. auto.
Defined.

(** C6, the claim as stated fails: the manager of a fresh session is not
    empty, it holds the set spawned by the constructor; a loop entered with
    an empty manager raises on its first pass; and 140 idle passes after
    construction bring the number of sets spawned to two. *)
Lemma C6_manager_not_empty_at_start :
  exists self,
    __init__ demo_generate "man" = Ok self
    /\ ObstacleManager.obstacle_sets (obstacle_manager self)
       = [demo_generate 0]
    /\ obstacle_manager self <> ObstacleManager.new
    /\ game_loop demo_speed demo_generate demo_position demo_collided_with
         demo_get_controll (repeat idle 140)
         (set_obstacle_manager self ObstacleManager.new)
       = Raise IndexError
    /\ exists st,
         game_loop demo_speed demo_generate demo_position demo_collided_with
           demo_get_controll (repeat idle 140) self = Ok st
         /\ draws_of st = 2%nat
         /\ List.length (sets_of st) = 2%nat.
Proof.
  exists (demo_session "man"). split; [reflexivity|].
  split; [reflexivity|]. split; [discriminate|].
  split; [vm_compute; reflexivity|].
  exists demo_spawned. split; [vm_compute; reflexivity|].
  split; reflexivity.
Qed.

(** C7 at work: before pass 344 the left bar is still above the blue ball;
    the pass moves it first, and the test of the same pass sees it hit. *)
Lemma C7_moves_before_collision_test_witness :
  tick demo_speed demo_generate demo_position demo_collided_with
    demo_get_controll idle demo_near = Ok demo_hit
  /\ check_collisions demo_collided_with (blue_ball (game demo_near))
       (red_ball (game demo_near)) [Obstacle.mk 0 812 270 30] false = false
  /\ game_over demo_hit
     = check_collisions demo_collided_with (blue_ball (game demo_near))
         (red_ball (game demo_near))
         [Obstacle.move demo_speed (Obstacle.mk 0 812 270 30)] false.
Proof.
  assert (Hr : running demo_near) by (split; reflexivity).
  assert (Ht : tick demo_speed demo_generate demo_position demo_collided_with
                 demo_get_controll idle demo_near = Ok demo_hit)
    by (run; reflexivity).
  split; [exact Ht|]. split; [reflexivity|].
  destruct (C7_moves_before_collision_test demo_speed demo_generate
              demo_position demo_collided_with demo_get_controll
              idle demo_near demo_hit Hr Ht)
    as [self1 [self2 [score2 [oldest [H1 [_ [_ [_ [H3 [Hgo _]]]]]]]]]].
  vm_compute in H3. injection H3 as <-.
  assert (E : self1 = game demo_near).
  { assert (H1' : move_balls demo_position demo_get_controll idle
                    (game demo_near) = Ok (game demo_near)) by reflexivity.
    rewrite H1' in H1. injection H1 as <-. reflexivity. }
  rewrite E in Hgo. exact Hgo.
Defined.

(** C9 at work: with the first bar still far the controller decides 0 and
    the session comes back as it was. *)
Lemma C9_contr_other_decision_leaves_balls_witness :
  move_balls demo_position demo_get_controll idle (demo_session "contr")
  = Ok (demo_session "contr").
Proof.
  apply (proj1 (C9_contr_other_decision_leaves_balls demo_position
                  demo_get_controll idle (demo_session "contr")
                  Controller.mk eq_refl eq_refl
                  ltac:(run; discriminate) ltac:(run; discriminate))).
Defined.

(** C10 at work: with two sets out of frame, one pass removes the first and
    scores 1, the next pass removes the second. *)
Lemma C10_at_most_one_removal_per_tick_witness :
  tick demo_speed demo_generate demo_position demo_collided_with
    demo_get_controll idle demo_two_out = Ok demo_one_out
  /\ tick demo_speed demo_generate demo_position demo_collided_with
       demo_get_controll idle demo_one_out = Ok demo_none_out
  /\ score demo_one_out = score demo_two_out + 1
  /\ sets_of demo_one_out
     = [[Obstacle.mk 220 1004 100 30]; [Obstacle.mk 0 444 270 30]]
  /\ score demo_none_out = score demo_two_out + 2.
Proof.
  assert (Ht : tick demo_speed demo_generate demo_position demo_collided_with
                 demo_get_controll idle demo_two_out = Ok demo_one_out)
    by (run; reflexivity).
  assert (Ht2 : tick demo_speed demo_generate demo_position demo_collided_with
                  demo_get_controll idle demo_one_out = Ok demo_none_out)
    by (run; reflexivity).
  split; [exact Ht|]. split; [exact Ht2|].
  destruct (C10_at_most_one_removal_per_tick demo_speed demo_generate
              demo_position demo_collided_with demo_get_controll
              idle demo_two_out demo_one_out Ht) as [_ [_ Htwo]].
  destruct (Htwo [Obstacle.mk 0 1564 270 600] [Obstacle.mk 220 1004 100 30]
              [[Obstacle.mk 0 444 270 30]] eq_refl eq_refl eq_refl)
    as [Hscore [Hsets Hnext]].
  split; [exact Hscore|]. split; [exact Hsets|].
  apply (Hnext idle demo_none_out); [unfold demo_speed; lia|exact Ht2].
Defined.

(** * Further properties, outside the choice of controller *)

Lemma move_balls_man_controller
    (position position' : Ball.t -> R * R)
    (get_controll get_controll' :
       Controller.t -> list Obstacle.t -> R * R -> R * R -> Z)
    (keys : Input) (self : DuetGame) :
  mode self = "man"%string ->
  move_balls position get_controll keys self
  = move_balls position' get_controll' keys self.
Proof. intros Hm. unfold move_balls. rewrite Hm. reflexivity. Qed.

(** X14: in mode "man" the controller and the positions handed to it play no
    part: the game is the same whatever [get_controll] and [position]
    compute. *)
Theorem X14_man_ignores_controller :
  forall (OBSTACLE_SPEED : Z) (generate : nat -> list Obstacle.t)
         (position position' : Ball.t -> R * R)
         (collided_with : Ball.t -> Obstacle.t -> bool)
         (get_controll get_controll' :
            Controller.t -> list Obstacle.t -> R * R -> R * R -> Z)
         (inputs : list Input) (self : DuetGame),
    mode self = "man"%string ->
    game_loop OBSTACLE_SPEED generate position collided_with get_controll
      inputs self
    = game_loop OBSTACLE_SPEED generate position' collided_with get_controll'
        inputs self.
Proof.
  intros v gen pos pos' cw gc gc' inputs self Hm. unfold game_loop.
  assert (Hs : mode (game (start self)) = "man"%string) by exact Hm.
  generalize dependent (start self). clear Hm self.
  induction inputs as [|inp rest IH]; intros st Hm; [reflexivity|].
  cbn [while_loop]. destruct (game_over st || quit_game st); [reflexivity|].
  assert (Et : tick v gen pos cw gc inp st = tick v gen pos' cw gc' inp st).
  { unfold tick.
    rewrite (move_balls_man_controller pos pos' gc gc' inp (game st) Hm).
    reflexivity. }
  rewrite Et.
  destruct (tick v gen pos' cw gc' inp st) as [st1|e] eqn:Ht; cbn [bind];
    [|reflexivity].
  apply IH.
  destruct (tick_attributes v gen pos' cw gc' _ _ _ Ht) as [Hm1 _].
  rewrite Hm1. exact Hm.
Qed.

(** X15: the balls are created on the circle that [draw_circle] draws, at
    the two ends of its horizontal diameter: the coordinates given to each
    ball are those of the point of the circle at the ball's angle, and the
    orbit radius given to the balls is the radius drawn. *)
Theorem X15_balls_start_on_the_drawn_circle :
  let cx := IZR (fst (circle_center draw_circle)) in
  let cy := IZR (snd (circle_center draw_circle)) in
  let radius := IZR (circle_radius draw_circle) in
  let blue := fst init_balls in
  let red := snd init_balls in
  (IZR (Ball.x blue) = cx + radius * cos (Ball.theta blue))%R
  /\ (IZR (Ball.y blue) = cy + radius * sin (Ball.theta blue))%R
  /\ (IZR (Ball.x red) = cx + radius * cos (Ball.theta red))%R
  /\ (IZR (Ball.y red) = cy + radius * sin (Ball.theta red))%R
  /\ Ball.r blue = circle_radius draw_circle
  /\ Ball.r red = circle_radius draw_circle.
Proof.
  cbv zeta.
  change (fst init_balls) with (Ball.mk 170 845 PI 100 SPIN_STEP).
  change (snd init_balls) with (Ball.mk 370 845 0%R 100 SPIN_STEP).
  change (circle_center draw_circle) with (270, 845).
  change (circle_radius draw_circle) with 100.
  cbn [fst snd Ball.x Ball.y Ball.theta Ball.r].
  rewrite cos_PI, sin_PI, cos_0, sin_0.
  repeat split; lra.
Qed.

(** * The further properties on the concrete choice *)

(** X1 at work: the mode "auto". *)
Lemma X1_invalid_mode_raises_at_first_pass_witness :
  exists self,
    __init__ demo_generate "auto" = Ok self
    /\ move_balls demo_position demo_get_controll idle self
       = Raise (ValueError "Invalid game mode 'auto'")
    /\ forall rest,
         game_loop demo_speed demo_generate demo_position demo_collided_with
           demo_get_controll (idle :: rest) self
         = Raise (ValueError "Invalid game mode 'auto'").
Proof.
  apply (X1_invalid_mode_raises_at_first_pass demo_speed demo_generate
           demo_position demo_collided_with demo_get_controll
           "auto"%string idle); discriminate.
Defined.

(** X2 at work: a fresh session in mode "contr" can be steered. *)
Lemma X2_move_balls_returns_iff_man_or_contr_witness :
  exists self',
    move_balls demo_position demo_get_controll hold_left
      (demo_session "contr") = Ok self'.
Proof.
  apply (proj1 (X2_move_balls_returns_iff_man_or_contr demo_generate
                  demo_position demo_get_controll
                  "contr"%string (demo_session "contr") hold_left eq_refl)).
  right. reflexivity.
Defined.

(** X3 at work: both arrows held. *)
Lemma X3_left_key_wins_witness :
  move_balls demo_position demo_get_controll (mkInput true true false)
    (demo_session "man")
  = Ok (set_balls (demo_session "man")
          (Ball.spin_left (blue_ball (demo_session "man")))
          (Ball.spin_left (red_ball (demo_session "man")))).
Proof.
  apply (proj1 (X3_left_key_wins demo_position demo_get_controll
                  (mkInput true true false) (demo_session "man")
                  eq_refl eq_refl)).
Defined.

(** X4 at work: two runs with different arrows and the same QUIT events. *)
Lemma X4_contr_ignores_keys_witness :
  game_loop demo_speed demo_generate demo_position demo_collided_with
    demo_get_controll [hold_left; idle; demo_quit] (demo_session "contr")
  = game_loop demo_speed demo_generate demo_position demo_collided_with
      demo_get_controll [hold_right; hold_right; demo_quit]
      (demo_session "contr").
Proof.
  apply (X4_contr_ignores_keys demo_speed demo_generate demo_position
           demo_collided_with demo_get_controll
           [hold_left; idle; demo_quit] [hold_right; hold_right; demo_quit]
           (demo_session "contr")); reflexivity.
Defined.

(** X5 at work: with a scroll speed of 1000 the first bar is gone after one
    move, nothing is spawned on pass 1, and the pass raises IndexError. *)
Lemma X5_pass_raises_iff_witness :
  tick demo_too_fast demo_generate demo_position demo_collided_with
    demo_get_controll idle (start (demo_session "man"))
  = Raise IndexError.
Proof.
  apply (proj2 (X5_pass_raises_iff demo_too_fast demo_generate demo_position
                  demo_collided_with demo_get_controll
                  idle (start (demo_session "man")) IndexError)).
  right. split; [reflexivity|]. split.
  - exists (demo_session "man"). reflexivity.
  - right. exists (demo_generate 0). split; [reflexivity|].
    split; [reflexivity|]. unfold start, NEW_OBS_INTERVAL. cbn [i].
    discriminate.
Defined.

(** X6 at work: the window is closed on the first pass. *)
Lemma X6_quit_ends_loop_after_the_pass_witness :
  while_loop demo_speed demo_generate demo_position demo_collided_with
    demo_get_controll [demo_quit; hold_left; hold_left]
    (start (demo_session "man"))
  = Ok demo_after_quit
  /\ loop_return demo_speed demo_generate demo_position demo_collided_with
       demo_get_controll [demo_quit; hold_left; hold_left] []
       (start (demo_session "man"))
     = Ok (Some true).
Proof.
  assert (Hr : running (start (demo_session "man"))) by (split; reflexivity).
  assert (Ht : tick demo_speed demo_generate demo_position
                 demo_collided_with demo_get_controll demo_quit
                 (start (demo_session "man")) = Ok demo_after_quit)
    by (run; reflexivity).
  destruct (X6_quit_ends_loop_after_the_pass demo_speed demo_generate
              demo_position demo_collided_with demo_get_controll
              demo_quit (start (demo_session "man")) demo_after_quit
              [hold_left; hold_left] [] Hr Ht eq_refl)
    as [_ [Hw Hret]].
  split; [exact Hw|]. apply Hret. reflexivity.
Defined.

(** X7 at work: the window is closed on the pass of the collision and the
    player then holds RETURN: the loop reports a restart. *)
Lemma X7_prompt_answer_replaces_quit_witness :
  loop_return demo_speed demo_generate demo_position demo_collided_with
    demo_get_controll [demo_quit] [demo_poll_quiet; demo_poll_return]
    demo_near
  = Ok (Some false).
Proof.
  assert (Hr : running demo_near) by (split; reflexivity).
  assert (Ht : tick demo_speed demo_generate demo_position
                 demo_collided_with demo_get_controll demo_quit demo_near
               = Ok (mkLoop (game demo_hit) true true 65 1))
    by (run; reflexivity).
  exact (X7_prompt_answer_replaces_quit demo_speed demo_generate
           demo_position demo_collided_with demo_get_controll
           demo_quit demo_near _ [] [demo_poll_quiet; demo_poll_return]
           Hr Ht eq_refl).
Defined.

(** X9 at work: two quiet polls, then RETURN held while the window is
    closed: the prompt answers quit. *)
Lemma X9_prompt_answers_at_first_decisive_poll_witness :
  DuetGame_game_over
    [demo_poll_quiet; demo_poll_quiet; demo_poll_return_quit;
     demo_poll_return]
  = Some true.
Proof.
  apply (X9_prompt_answers_at_first_decisive_poll
           [demo_poll_quiet; demo_poll_quiet] demo_poll_return_quit
           [demo_poll_return]).
  - repeat constructor.
  - reflexivity.
Defined.

(** X10 at work: quiet polls leave the prompt waiting. *)
Lemma X10_prompt_waits_iff_nothing_happens_witness :
  DuetGame_game_over [demo_poll_quiet; demo_poll_quiet; demo_poll_quiet]
  = None.
Proof.
  apply (proj2 (X10_prompt_waits_iff_nothing_happens
                  [demo_poll_quiet; demo_poll_quiet; demo_poll_quiet])).
  repeat constructor.
Defined.

(** X11 at work: after 248 idle passes the first bar has been removed and
    the second, which arrived on pass 140, has moved 108 times. *)
Lemma X11_sets_held_in_order_of_arrival_witness :
  passes demo_speed demo_generate demo_position demo_collided_with
    demo_get_controll 248 (start (demo_session "man")) demo_left
  /\ draws_of demo_left = 2%nat
  /\ score demo_left = 1
  /\ sets_of demo_left = [moved demo_speed 108 (demo_generate 1)].
Proof.
  assert (Hp : passes demo_speed demo_generate demo_position
                 demo_collided_with demo_get_controll 248
                 (start (demo_session "man")) demo_left).
  { apply (while_loop_passes_running demo_speed demo_generate demo_position
             demo_collided_with demo_get_controll (repeat idle 248)).
    - vm_compute. reflexivity.
    - split; reflexivity. }
  split; [exact Hp|].
  destruct (X11_sets_held_in_order_of_arrival demo_speed demo_generate
              demo_position demo_collided_with demo_get_controll
              "man"%string (demo_session "man") 248 demo_left eq_refl Hp)
    as [Hd [first [Hsc [_ Hsets]]]].
  split; [exact Hd|]. split; [reflexivity|].
  assert (E : first = 1%nat) by (apply Nat2Z.inj; rewrite <- Hsc; reflexivity).
  subst first. exact Hsets.
Defined.

(** X12 at work: after 248 idle passes one set is held, one is scored, two
    were drawn. *)
Lemma X12_score_counts_removed_sets_witness :
  Z.of_nat (List.length (sets_of demo_left)) + score demo_left
  = Z.of_nat (draws_of demo_left).
Proof.
  assert (Hl : game_loop demo_speed demo_generate demo_position
                 demo_collided_with demo_get_controll (repeat idle 248)
                 (demo_session "man") = Ok demo_left)
    by (vm_compute; reflexivity).
  destruct (X12_score_counts_removed_sets demo_speed demo_generate
              demo_position demo_collided_with demo_get_controll
              "man"%string (demo_session "man") (repeat idle 248) demo_left
              eq_refl Hl)
    as [_ [_ [H _]]].
  exact H.
Defined.

Lemma demo_generate_top (j : nat) :
  exists o, In o (demo_generate j)
            /\ Obstacle.y o <= 0 /\ 0 <= Obstacle.height o.
Proof.
  unfold demo_generate. destruct (Nat.even j); eexists;
    (split; [left; reflexivity|]); cbn; lia.
Qed.

(** X13 at work: a thousand passes with the left arrow held come back with a
    state of the loop. *)
Lemma X13_game_never_raises_witness :
  exists st,
    game_loop demo_speed demo_generate demo_position demo_collided_with
      demo_get_controll (repeat hold_left 1000) (demo_session "man")
    = Ok st.
Proof.
  apply (X13_game_never_raises demo_speed demo_generate demo_position
           demo_collided_with demo_get_controll
           "man"%string (demo_session "man") (repeat hold_left 1000)).
  - reflexivity.
  - left. reflexivity.
  - unfold demo_speed. lia.
  - unfold demo_speed, NEW_OBS_INTERVAL, BOARD_HEIGHT. lia.
  - exact demo_generate_top.
Defined.

(** X14 at work: in mode "man" a controller that always steers right changes
    nothing. *)
Lemma X14_man_ignores_controller_witness :
  game_loop demo_speed demo_generate demo_position demo_collided_with
    demo_get_controll [hold_left; idle] (demo_session "man")
  = game_loop demo_speed demo_generate demo_position demo_collided_with
      demo_always_right [hold_left; idle] (demo_session "man").
Proof.
  apply (X14_man_ignores_controller demo_speed demo_generate demo_position
           demo_position demo_collided_with demo_get_controll
           demo_always_right [hold_left; idle] (demo_session "man")).
  reflexivity.
Defined.
